(** * gen_lib_tables: KiCad library-table generation

    A shallow embedding of [gen_lib_tables.py] and the properties of its
    naming, ordering, escaping and driver logic.

    Conventions of the model:
    - a Python [str] is a [string]: its code points written in the UTF-8
      scheme, so one byte for an ASCII character (a lone surrogate, which
      stands for a byte of a file name that is not UTF-8, is written in the
      same scheme); comparison is the lexicographic order on byte values,
      which is Python's order on code points;
    - what the interpreter brings and the script only calls is a parameter
      of the model: [str.lower], whose folding of the cased letters follows
      the interpreter's Unicode tables, and whether a text can be encoded
      for a file or for the standard output. Every statement holds for
      whatever they are; [Str.ascii_lower] is the folding of the letters A
      to Z, which [str.lower] agrees with on ASCII text;
    - a [pathlib] path is a record of an anchor flag and its components
      (POSIX flavour, as in CPython 3.11); the pure operations ([parent],
      [name], [stem], [relative_to], [as_posix], [/]) never touch the file
      system;
    - the file system is a tree of named nodes with the directory listing
      order kept (it is the order [os.scandir] reports), no symbolic links;
    - exceptions are values of [exn] carried by the [result] monad. *)

From Stdlib Require Import Ascii.
From stdpp Require Import gmap strings list sorting.

(** ** Strings *)

Module Str.

(** [s.replace(old, new)] for a one-character [old]. *)
Fixpoint replace (old : ascii) (new : string) (s : string) : string :=
  match s with
  | EmptyString => EmptyString
  | String c s' =>
      if Ascii.eqb c old then new +:+ replace old new s'
      else String c (replace old new s')
  end.

(** [sep.join(l)]. *)
Fixpoint join (sep : string) (l : list string) : string :=
  match l with
  | [] => EmptyString
  | [x] => x
  | x :: l' => x +:+ sep +:+ join sep l'
  end.

(** [s.rstrip("\n")]: drop every trailing line feed. *)
Fixpoint rstrip_nl (s : string) : string :=
  match s with
  | EmptyString => EmptyString
  | String c s' =>
      match rstrip_nl s' with
      | EmptyString => if Ascii.eqb c "010"%char then EmptyString else String c EmptyString
      | r => String c r
      end
  end.

(** [s.endswith(suffix)]. *)
Definition endswith (s suffix : string) : bool :=
  let n := String.length s in
  let k := String.length suffix in
  (k <=? n)%nat && String.eqb (String.substring (n - k) k s) suffix.

(** [s[:n]]. *)
Definition take (n : nat) (s : string) : string := String.substring 0 n s.

(** [s.rfind(c)] for a one-character [c]; [None] stands for [-1]. *)
Fixpoint rfind (c : ascii) (s : string) : option nat :=
  match s with
  | EmptyString => None
  | String a s' =>
      match rfind c s' with
      | Some i => Some (S i)
      | None => if Ascii.eqb a c then Some 0%nat else None
      end
  end.

Definition ascii_lower_char (c : ascii) : ascii :=
  let n := nat_of_ascii c in
  if ((65 <=? n) && (n <=? 90))%nat then ascii_of_nat (n + 32) else c.

(** The folding of the letters A to Z, which is what [s.lower()] does to a
    text of ASCII characters. It is not [str.lower]: that one, which folds
    every cased letter of Unicode, is a parameter of the model below. *)
Fixpoint ascii_lower (s : string) : string :=
  match s with
  | EmptyString => EmptyString
  | String c s' => String (ascii_lower_char c) (ascii_lower s')
  end.

(** Every character of [s] is an ASCII character. *)
Fixpoint is_ascii (s : string) : bool :=
  match s with
  | EmptyString => true
  | String c s' => (nat_of_ascii c <? 128)%nat && is_ascii s'
  end.

(** Number of line feeds the string ends with. *)
Fixpoint trailing_newlines (s : string) : nat :=
  match s with
  | EmptyString => 0
  | String c s' =>
      let n := trailing_newlines s' in
      if (n =? String.length s')%nat && Ascii.eqb c "010"%char then S n else n
  end.

End Str.

(** ** Serialization of one library line *)

Definition SYM_HEADER : string := "(sym_lib_table
  (version 7)
".
Definition FP_HEADER : string := "(fp_lib_table
  (version 7)
".
Definition FOOTER : string := ")
".

Definition backslash : ascii := "092"%char.
Definition dquote : ascii := "034"%char.

Definition kicad_escape (s : string) : string :=
  Str.replace dquote (String backslash (String dquote EmptyString))
    (Str.replace backslash (String backslash (String backslash EmptyString)) s).

Definition make_lib_line (name uri : string) : string :=
  "  (lib (name " +:+ String dquote (kicad_escape name) +:+ String dquote ")"
  +:+ "(type " +:+ String dquote "KiCad" +:+ String dquote ")"
  +:+ "(uri " +:+ String dquote (kicad_escape uri) +:+ String dquote ")"
  +:+ "(options " +:+ String dquote (String dquote ")")
  +:+ "(descr " +:+ String dquote (String dquote "))").

(** *** Reading a library line back

    The reader a consumer of the table applies: the line is cut at every
    double quote that is not preceded by an escaping backslash, and the
    fields between the quotes are unescaped (a backslash stands for the
    character after it). *)

(** [split_quotes escaped cur s]: the pieces of [s] between unescaped
    quotes; [cur] is the piece being read, reversed, and [escaped] tells that
    the previous character was an escaping backslash. *)
Fixpoint split_quotes (escaped : bool) (cur : string) (s : string) : list string :=
  match s with
  | EmptyString => [String.rev cur]
  | String c s' =>
      if escaped then split_quotes false (String c cur) s'
      else if Ascii.eqb c dquote then String.rev cur :: split_quotes false EmptyString s'
      else if Ascii.eqb c backslash then split_quotes true (String c cur) s'
      else split_quotes false (String c cur) s'
  end.

Fixpoint unescape (escaped : bool) (s : string) : string :=
  match s with
  | EmptyString => EmptyString
  | String c s' =>
      if escaped then String c (unescape false s')
      else if Ascii.eqb c backslash then unescape true s'
      else String c (unescape false s')
  end.

(** The name and the uri of a rendered library line. *)
Definition parse_lib_line (line : string) : option (string * string) :=
  match split_quotes false EmptyString line with
  | [_; n; _; _; _; u; _; _; _; _; _] => Some (unescape false n, unescape false u)
  | _ => None
  end.

(** What escaping does to one character. *)
Definition escape_char (c : ascii) : string :=
  if Ascii.eqb c backslash then String backslash (String backslash EmptyString)
  else if Ascii.eqb c dquote then String backslash (String dquote EmptyString)
  else String c EmptyString.

(** [plain escaped t]: read from the state [escaped], the text [t] holds no
    unescaped quote and does not end on a pending backslash. *)
Fixpoint plain (escaped : bool) (t : string) : bool :=
  match t with
  | EmptyString => negb escaped
  | String c t' =>
      if escaped then plain false t'
      else if Ascii.eqb c dquote then false
      else if Ascii.eqb c backslash then plain true t'
      else plain false t'
  end.

(** ** Paths *)

Record Path := mkPath { absolute : bool; parts : list string }.

#[global] Instance Path_eq_dec : EqDecision Path.
Proof. solve_decision. Defined.

#[global] Instance Path_countable : Countable Path.
Proof.
  apply (inj_countable' (fun p => (absolute p, parts p))
                        (fun x => mkPath x.1 x.2)).
  by intros [].
Defined.

(** [strip_prefix pre l]: what is left of [l] after the components [pre]. *)
Fixpoint strip_prefix (pre l : list string) : option (list string) :=
  match pre, l with
  | [], _ => Some l
  | x :: pre', y :: l' => if String.eqb x y then strip_prefix pre' l' else None
  | _ :: _, [] => None
  end.

(** [p.name]: the last component, empty for a path without components. *)
Definition name (p : Path) : string := List.last (parts p) EmptyString.

(** [p.parent]; the root and the empty path are their own parents. *)
Definition parent (p : Path) : Path :=
  mkPath (absolute p) (List.removelast (parts p)).

(** [p.stem]: the name without its last suffix. *)
Definition stem (p : Path) : string :=
  let n := name p in
  match Str.rfind "."%char n with
  | Some i =>
      if ((0 <? i) && (i <? String.length n - 1))%nat then Str.take i n else n
  | None => n
  end.

(** [p.as_posix()], which is also [str(p)] in the POSIX flavour. *)
Definition as_posix (p : Path) : string :=
  if absolute p then "/" +:+ Str.join "/" (parts p)
  else match parts p with
       | [] => "."
       | _ => Str.join "/" (parts p)
       end.

(** [p.relative_to(other)]; [None] stands for the [ValueError]. *)
Definition relative_to (p other : Path) : option Path :=
  if Bool.eqb (absolute p) (absolute other)
  then mkPath false <$> strip_prefix (parts other) (parts p)
  else None.

(** [p / q]. *)
Definition joinpath (p q : Path) : Path :=
  if absolute q then q else mkPath (absolute p) (parts p ++ parts q).

(** [p / name] for a single component. *)
Definition child (p : Path) (nm : string) : Path :=
  mkPath (absolute p) (parts p ++ [nm]).

(** ** Exceptions *)

Inductive exn : Type :=
| FileNotFoundError (msg : string)
| ValueError (self other : Path)      (* raised by [relative_to] *)
| KeyError (key : Path)               (* raised by [name_map[p]] *)
| OSError (p : Path)                  (* raised when [write_text] opens [p] *)
| UnicodeEncodeError.                 (* raised when a text is encoded *)

Inductive result (A : Type) : Type :=
| Ok (a : A)
| Raise (e : exn).
Arguments Ok {A} a.
Arguments Raise {A} e.

#[global] Instance result_ret : MRet result := fun A a => Ok a.
#[global] Instance result_bind : MBind result := fun A B k r =>
  match r with
  | Ok a => k a
  | Raise e => Raise e
  end.

(** [o] when it is there, the exception [e] otherwise. *)
Definition or_raise {A} (o : option A) (e : exn) : result A :=
  match o with
  | Some a => Ok a
  | None => Raise e
  end.

(** ** The file system *)

#[local] Unset Elimination Schemes.
Inductive node : Type :=
| File (content : string)
| Dir (entries : list (string * node)).
#[local] Set Elimination Schemes.

(** Induction on nodes, with the hypothesis for every entry of a listing. *)
Fixpoint node_ind (P : node -> Prop)
    (HFile : forall c, P (File c))
    (HDir : forall es, Forall (fun e => P e.2) es -> P (Dir es))
    (n : node) : P n :=
  match n with
  | File c => HFile c
  | Dir es =>
      HDir es
        ((fix all (es : list (string * node)) : Forall (fun e => P e.2) es :=
            match es with
            | [] => List.Forall_nil _
            | (k, n') :: rest =>
                @List.Forall_cons _ (fun e => P e.2) (k, n') rest
                  (node_ind P HFile HDir n') (all rest)
            end) es)
  end.

Record FS := mkFS { fs_root : node; fs_cwd : list string }.

Fixpoint lookup_child (nm : string) (entries : list (string * node)) : option node :=
  match entries with
  | [] => None
  | (k, n) :: rest => if String.eqb k nm then Some n else lookup_child nm rest
  end.

(** The node reached from [n] along the names [rel]. *)
Fixpoint descend (n : node) (rel : list string) : option node :=
  match rel with
  | [] => Some n
  | c :: rest =>
      match n with
      | Dir es =>
          match lookup_child c es with
          | Some n' => descend n' rest
          | None => None
          end
      | File _ => None
      end
  end.

(** Path resolution: [stack] is the directory reached so far (its names from
    the root, innermost first); every component must be looked up in a
    directory, and [..] steps back to the parent (the root is its own). *)
Fixpoint canon (root : node) (stack : list string) (comps : list string)
  : option (list string) :=
  match comps with
  | [] => Some (rev stack)
  | c :: rest =>
      match descend root (rev stack) with
      | Some (Dir es) =>
          if String.eqb c ".." then canon root (tail stack) rest
          else match lookup_child c es with
               | Some _ => canon root (c :: stack) rest
               | None => None
               end
      | _ => None
      end
  end.

(** The names from the root of the node a path denotes. *)
Definition fs_canon (fs : FS) (p : Path) : option (list string) :=
  if absolute p then canon (fs_root fs) [] (parts p)
  else match canon (fs_root fs) [] (fs_cwd fs) with
       | Some here => canon (fs_root fs) (rev here) (parts p)
       | None => None
       end.

Definition fs_find (fs : FS) (p : Path) : option node :=
  match fs_canon fs p with
  | Some names => descend (fs_root fs) names
  | None => None
  end.

(** [p.exists()] *)
Definition path_exists (fs : FS) (p : Path) : bool :=
  match fs_find fs p with Some _ => true | None => false end.

(** [p.is_dir()] *)
Definition is_dir (fs : FS) (p : Path) : bool :=
  match fs_find fs p with Some (Dir _) => true | _ => false end.

(** The recursive glob below one directory node: the matching entries of the
    directory itself in listing order, then those of each subdirectory in
    turn. Only entries are produced, never the starting directory. *)
Fixpoint rglob_node (matches : string -> bool) (dir : Path) (n : node) : list Path :=
  match n with
  | File _ => []
  | Dir es =>
      ((fun e => child dir e.1) <$> filter (fun e => matches e.1 = true) es)
      ++ (fix below (es : list (string * node)) : list Path :=
            match es with
            | [] => []
            | (k, n') :: rest => rglob_node matches (child dir k) n' ++ below rest
            end) es
  end.

(** [dir.rglob("*" + suffix)]: nothing when [dir] is not a directory. *)
Definition rglob (fs : FS) (dir : Path) (suffix : string) : list Path :=
  match fs_find fs dir with
  | Some (Dir es) => rglob_node (fun nm => Str.endswith nm suffix) dir (Dir es)
  | _ => []
  end.

(** *** Writing a file *)

(** Put the file [nm] with [content] into a listing: an existing file is
    overwritten in place, a new one is added at the end. *)
Fixpoint set_file (nm content : string) (entries : list (string * node))
  : list (string * node) :=
  match entries with
  | [] => [(nm, File content)]
  | (k, n) :: rest =>
      if String.eqb k nm then (k, File content) :: rest
      else (k, n) :: set_file nm content rest
  end.

Fixpoint write_node (n : node) (dirs : list string) (nm content : string) : node :=
  match n with
  | File c => File c
  | Dir es =>
      match dirs with
      | [] => Dir (set_file nm content es)
      | d :: ds =>
          Dir ((fix go (es : list (string * node)) : list (string * node) :=
                  match es with
                  | [] => []
                  | (k, n') :: rest =>
                      if String.eqb k d then (k, write_node n' ds nm content) :: rest
                      else (k, n') :: go rest
                  end) es)
      end
  end.

(** [p.open("w")]: the directory of [p] must exist and [p] must not be a
    directory. The result is where the file is, by the names of its
    directory from the root and its own name; the file is created there, or
    emptied, by the opening (see [write_text]). *)
Definition open_for_writing (fs : FS) (p : Path) : result (list string * string) :=
  match rev (parts p) with
  | [] => Raise (OSError p)
  | nm :: _ =>
      if String.eqb nm ".." then Raise (OSError p)
      else match fs_canon fs (parent p) with
           | None => Raise (OSError p)
           | Some dirs =>
               match descend (fs_root fs) dirs with
               | Some (Dir es) =>
                   match lookup_child nm es with
                   | Some (Dir _) => Raise (OSError p)
                   | _ => Ok (dirs, nm)
                   end
               | _ => Raise (OSError p)
               end
           end
  end.

(** ** Sorting *)

(** [sorted(l, key=key)]: a stable sort that compares keys with [<] only. *)
Fixpoint insert_by {A} (key : A -> string) (x : A) (l : list A) : list A :=
  match l with
  | [] => [x]
  | y :: l' =>
      if String.ltb (key y) (key x) then y :: insert_by key x l'
      else x :: y :: l'
  end.

Definition sorted {A} (key : A -> string) (l : list A) : list A :=
  foldr (insert_by key) [] l.

(** ** Name assignment *)

(** The disambiguating suffix of a colliding entry. *)
Definition name_suffix (project_root p : Path) : string :=
  let parent_rel :=
    match relative_to (parent p) project_root with
    | Some r => as_posix r
    | None => as_posix (parent p)
    end in
  Str.replace "092"%char "_" (Str.replace "/"%char "_" parent_rel).

(** One iteration of the loop of [make_unique_names] on the state
    [(seen, result)]. *)
Definition name_step (base_name_func : Path -> string) (project_root : Path)
    (st : gmap string nat * gmap Path string) (p : Path)
  : gmap string nat * gmap Path string :=
  let base := base_name_func p in
  match st.1 !! base with
  | None => (<[base := 1]> st.1, <[p := base]> st.2)
  | Some n =>
      (<[base := n + 1]> st.1,
       <[p := base +:+ "_" +:+ name_suffix project_root p]> st.2)
  end.

(** The loop, with the registry [seen] it ends with. *)
Definition make_unique_names_loop (paths : list Path)
    (base_name_func : Path -> string) (project_root : Path)
  : gmap string nat * gmap Path string :=
  foldl (name_step base_name_func project_root) (∅, ∅) paths.

Definition make_unique_names (paths : list Path)
    (base_name_func : Path -> string) (project_root : Path) : gmap Path string :=
  (make_unique_names_loop paths base_name_func project_root).2.

(** ** Generation *)

Definition KIPRJMOD : string := "${KIPRJMOD}/".

(** The body of the [for] loops of the two generators: one library line per
    entry, in order. *)
Fixpoint lib_lines (name_map : gmap Path string) (project_root : Path)
    (entries : list Path) : result (list string) :=
  match entries with
  | [] => Ok []
  | p :: rest =>
      nm ← or_raise (name_map !! p) (KeyError p);
      rel ← or_raise (relative_to p project_root) (ValueError p project_root);
      lines ← lib_lines name_map project_root rest;
      Ok (make_lib_line nm (KIPRJMOD +:+ as_posix rel) :: lines)
  end.

Definition newline : string := String "010"%char EmptyString.

(** [p.name[:-len(".pretty")] if p.name.endswith(".pretty") else p.name] *)
Definition pretty_base (p : Path) : string :=
  if Str.endswith (name p) ".pretty"
  then Str.take (String.length (name p) - String.length ".pretty") (name p)
  else name p.

(** ** The driver *)

(** The parsed command line; the two file names are kept as the paths
    [pathlib] makes of them when they are joined to the project root. *)
Record Args := mkArgs { sym_out : Path; fp_out : Path; dry_run : bool }.

(** What a run can change: the file system and the two output streams,
    each of them as the text printed on it. *)
Record World := mkWorld { w_fs : FS; w_stdout : string; w_stderr : string }.

(** [print(s, file=stream)] *)
Definition print (stream s : string) : string := stream +:+ s +:+ newline.

Definition print_err (s : string) (w : World) : World :=
  mkWorld (w_fs w) (w_stdout w) (print (w_stderr w) s).

Definition print_out (s : string) (w : World) : World :=
  mkWorld (w_fs w) (print (w_stdout w) s) (w_stderr w).

(** How [main] ends: it returns an exit status, or an exception leaves it. *)
Inductive outcome : Type :=
| Exit (status : nat)
| Uncaught (e : exn).

(** ** Well-formed file systems *)

(** A directory entry's name: not empty, not [.] or [..], without [/]. *)
Definition valid_name (nm : string) : bool :=
  negb (String.eqb nm EmptyString)
  && negb (String.eqb nm ".")
  && negb (String.eqb nm "..")
  && String.eqb (Str.replace "/"%char EmptyString nm) nm.

(** Every directory lists valid names, each of them once. *)
Fixpoint wf_node (n : node) : bool :=
  match n with
  | File _ => true
  | Dir es =>
      forallb valid_name es.*1
      && bool_decide (NoDup es.*1)
      && (fix all (es : list (string * node)) : bool :=
            match es with
            | [] => true
            | (_, n') :: rest => wf_node n' && all rest
            end) es
  end.

Definition wf_fs (fs : FS) : bool := wf_node (fs_root fs).

(** [dir] followed by the names [rel]. *)
Definition extend (dir : Path) (rel : list string) : Path :=
  mkPath (absolute dir) (parts dir ++ rel).

(** ** Notions the statements use *)

(** The order a key induces. *)
Definition le_by {A} (key : A -> string) (x y : A) : Prop :=
  String.le (key x) (key y).

(** [s] with every slash and backslash turned into an underscore. *)
Fixpoint underscore_separators (s : string) : string :=
  match s with
  | EmptyString => EmptyString
  | String c s' =>
      String (if Ascii.eqb c "/"%char || Ascii.eqb c backslash then "_"%char else c)
             (underscore_separators s')
  end.

(** [line] is the library line of the entry [p]. *)
Definition entry_line (name_map : gmap Path string) (project_root : Path)
    (p : Path) (line : string) : Prop :=
  exists nm rel,
    name_map !! p = Some nm /\ relative_to p project_root = Some rel
    /\ line = make_lib_line nm (KIPRJMOD +:+ as_posix rel).

(** How often the base name [b] occurs among [paths]. *)
Definition base_count (base_name_func : Path -> string) (b : string)
    (paths : list Path) : nat :=
  length (filter (fun p => base_name_func p = b) paths).

(** ** Sample trees *)

Module Sample.

Definition project_root : Path := mkPath true ["p"].
Definition script_path : Path := mkPath true ["p"; "lib"; "gen_lib_tables.py"].
Definition symbols_dir : Path := mkPath true ["p"; "lib"; "symbols"].
Definition footprints_dir : Path := mkPath true ["p"; "lib"; "footprints"].

(** A project whose submodule [lib] holds the given listings. *)
Definition project (symbols footprints : list (string * node)) : FS :=
  mkFS (Dir [("p", Dir [("lib", Dir [("gen_lib_tables.py", File "#!");
                                      ("symbols", Dir symbols);
                                      ("footprints", Dir footprints)])])])
       [].

(** Two symbol files of one stem, one footprint library. *)
Definition fs_two : FS :=
  project [("sub", Dir [("a.kicad_sym", File "(a2)")]);
           ("a.kicad_sym", File "(a1)")]
          [("r.pretty", Dir [("r.kicad_mod", File "(r)")])].

(** No symbol file at all, and no footprints directory. *)
Definition fs_empty : FS :=
  mkFS (Dir [("p", Dir [("lib", Dir [("gen_lib_tables.py", File "#!");
                                      ("symbols", Dir [("README", File "")])])])])
       [].

(** A suffixed name that meets the stem of another file, and a footprint
    library called like the base entry. *)
Definition fs_clash : FS :=
  project [("a.kicad_sym", File "");
           ("a_lib_symbols_sub.kicad_sym", File "");
           ("sub", Dir [("a.kicad_sym", File "")])]
          [("footprints.pretty", Dir [])].

(** Two names that differ in case only, the lower-case one listed first. *)
Definition fs_case : FS :=
  project [("a.kicad_sym", File ""); ("A.kicad_sym", File "")] [].

(** A scan directory whose own name has the footprint suffix. *)
Definition pretty_root : Path := mkPath true ["p"; "lib"; "all.pretty"].
Definition fs_pretty_root : FS :=
  mkFS (Dir [("p", Dir [("lib", Dir [("all.pretty",
                                       Dir [("r.pretty", Dir [])])])])])
       [].

(** A symbol file directly in the project root, met after one of the same
    stem. *)
Definition in_root : list Path :=
  [mkPath true ["p"; "A"; "x.kicad_sym"]; mkPath true ["p"; "x.kicad_sym"]].

(** The two symbol files of [fs_two], in sorted order. *)
Definition sym_a : Path := mkPath true ["p"; "lib"; "symbols"; "a.kicad_sym"].
Definition sym_sub_a : Path :=
  mkPath true ["p"; "lib"; "symbols"; "sub"; "a.kicad_sym"].

Definition no_message (e : exn) : string := EmptyString.

Definition args : Args :=
  mkArgs (mkPath false ["sym-lib-table"]) (mkPath false ["fp-lib-table"]) false.

Definition world (fs : FS) : World := mkWorld fs EmptyString EmptyString.

(** The two tables of [fs_two]. *)
Definition sym_table_two : string :=
  Str.join newline
    [Str.rstrip_nl SYM_HEADER;
     make_lib_line "a" "${KIPRJMOD}/lib/symbols/a.kicad_sym";
     make_lib_line "a_lib_symbols_sub" "${KIPRJMOD}/lib/symbols/sub/a.kicad_sym";
     Str.rstrip_nl FOOTER]
  +:+ newline.
Definition fp_table_two : string :=
  Str.join newline
    [Str.rstrip_nl FP_HEADER;
     make_lib_line "footprints" "${KIPRJMOD}/lib/footprints";
     make_lib_line "r" "${KIPRJMOD}/lib/footprints/r.pretty";
     Str.rstrip_nl FOOTER]
  +:+ newline.

(** The tree of [fs_two] with the given files added to the project root. *)
Definition fs_two_with (files : list (string * node)) : FS :=
  mkFS (Dir [("p", Dir ([("lib", Dir [("gen_lib_tables.py", File "#!");
                ("symbols", Dir [("sub", Dir [("a.kicad_sym", File "(a2)")]);
                                 ("a.kicad_sym", File "(a1)")]);
                ("footprints", Dir [("r.pretty", Dir [("r.kicad_mod", File "(r)")])])])]
                         ++ files))])
       [].

(** The tree of [fs_two] after a run has written its two tables. *)
Definition fs_two_written : FS :=
  fs_two_with [("sym-lib-table", File sym_table_two);
               ("fp-lib-table", File fp_table_two)].

(** Every text can be encoded; no text can. *)
Definition all_encodable (s : string) : bool := true.
Definition none_encodable (s : string) : bool := false.

End Sample.

(** ** Further sample trees *)

Module More.

(** Two symbol files and two footprint libraries, listed in one order and
    in the other. *)
Definition fs_ab : FS :=
  Sample.project [("a.kicad_sym", File "(a)"); ("b.kicad_sym", File "(b)")]
                 [("p.pretty", Dir []); ("q.pretty", Dir [])].
Definition fs_ba : FS :=
  Sample.project [("b.kicad_sym", File "(b)"); ("a.kicad_sym", File "(a)")]
                 [("q.pretty", Dir []); ("p.pretty", Dir [])].

Definition sym_b : Path := mkPath true ["p"; "lib"; "symbols"; "b.kicad_sym"].

(** Entries whose names are the suffix alone. *)
Definition fs_hidden : FS :=
  Sample.project [(".kicad_sym", File "")] [(".pretty", Dir [])].

Definition args_dry : Args :=
  mkArgs (mkPath false ["sym-lib-table"]) (mkPath false ["fp-lib-table"]) true.

(** The footprint table is to go into a directory that does not exist. *)
Definition args_bad_fp : Args :=
  mkArgs (mkPath false ["sym-lib-table"]) (mkPath false ["nodir"; "fp-lib-table"])
         false.

(** The worlds after a run on [fs_two] with [Sample.args] and with
    [args_bad_fp]. *)
Definition world_after : World :=
  mkWorld Sample.fs_two_written
    (print (print EmptyString "✔ Generated /p/sym-lib-table")
       "✔ Generated /p/fp-lib-table")
    EmptyString.
Definition world_after_bad_fp : World :=
  mkWorld (Sample.fs_two_with [("sym-lib-table", File Sample.sym_table_two)])
    EmptyString EmptyString.

(** The world after a run on [fs_two] whose symbol table cannot be
    encoded. *)
Definition world_after_unencodable : World :=
  mkWorld (Sample.fs_two_with [("sym-lib-table", File EmptyString)])
    EmptyString EmptyString.

End More.

(** ** Further notions *)

(** How often the character [c] occurs in [s]. *)
Fixpoint count_char (c : ascii) (s : string) : nat :=
  match s with
  | EmptyString => 0
  | String a s' => (if Ascii.eqb a c then 1 else 0) + count_char c s'
  end.

Definition line_feed : ascii := "010"%char.

(** The listing in which the first entry called [d] has its node changed by
    [f]: what [write_node] does to the listing it passes through. *)
Fixpoint write_entries (f : node -> node) (d : string)
    (es : list (string * node)) : list (string * node) :=
  match es with
  | [] => []
  | (k, n') :: rest =>
      if String.eqb k d then (k, f n') :: rest
      else (k, n') :: write_entries f d rest
  end.

(** [lower] does to a text of ASCII characters what [str.lower] does to
    it: it folds the letters A to Z. *)
Definition folds_ascii (lower : string -> string) : Prop :=
  forall s, Str.is_ascii s = true -> lower s = Str.ascii_lower s.

(** One of the letters A to Z. *)
Definition is_upper (c : ascii) : bool :=
  (65 <=? nat_of_ascii c)%nat && (nat_of_ascii c <=? 90)%nat.

(** The same character, or the two cases of one of the letters A to Z. *)
Definition same_letter (a b : ascii) : bool :=
  Ascii.eqb a b
  || (is_upper a && (nat_of_ascii b =? nat_of_ascii a + 32)%nat)
  || (is_upper b && (nat_of_ascii a =? nat_of_ascii b + 32)%nat).

(** Two texts that differ at most in the case of the letters A to Z. *)
Fixpoint equal_ignoring_case (s t : string) : bool :=
  match s, t with
  | EmptyString, EmptyString => true
  | String a s', String b t' => same_letter a b && equal_ignoring_case s' t'
  | _, _ => false
  end.

(** The node is not a directory. *)
Definition not_dir (o : option node) : Prop :=
  match o with
  | Some (Dir _) => False
  | _ => True
  end.

(** ** The parts that depend on the interpreter *)

Section Interpreter.

(** [str.lower]: the folding of every cased letter, by the tables of the
    interpreter's Unicode database. *)
Variable lower : string -> string.

(** Whether a text can be encoded as UTF-8, which [write_text] is asked to
    do. A text with a lone surrogate, as a file name that is not UTF-8
    brings, cannot. *)
Variable encodable : string -> bool.

(** Whether a text can be encoded for the standard output, whose encoding
    and error handler are those of the environment the script runs in. The
    error stream escapes what it cannot encode, so printing on it never
    fails. *)
Variable stdout_encodable : string -> bool.

#[local] Set Default Proof Using "Type".

(** [p.write_text(content)]: the file is opened for writing, which creates
    it or empties it, and then the text is encoded and written. The result
    is the file system the call leaves behind and what it returned or
    raised: when the file cannot be opened nothing has changed, and when the
    text cannot be encoded the file is there and empty. *)
Definition write_text (fs : FS) (p : Path) (content : string) : FS * result unit :=
  match open_for_writing fs p with
  | Raise e => (fs, Raise e)
  | Ok (dirs, nm) =>
      if encodable content
      then (mkFS (write_node (fs_root fs) dirs nm content) (fs_cwd fs), Ok tt)
      else (mkFS (write_node (fs_root fs) dirs nm EmptyString) (fs_cwd fs),
            Raise UnicodeEncodeError)
  end.

(** [lambda p: p.as_posix().lower()] *)
Definition sort_key (p : Path) : string := lower (as_posix p).

(** The matching symbol files, sorted. *)
Definition sym_files (fs : FS) (symbols_dir : Path) : list Path :=
  sorted sort_key (rglob fs symbols_dir ".kicad_sym").

Definition generate_sym_lib_table (project_root symbols_dir : Path) (fs : FS)
  : result string :=
  if negb (path_exists fs symbols_dir)
  then Raise (FileNotFoundError
                ("Symbols directory not found: " +:+ as_posix symbols_dir))
  else
    let files := sym_files fs symbols_dir in
    let name_map := make_unique_names files stem project_root in
    lines ← lib_lines name_map project_root files;
    Ok (Str.join newline
          ([Str.rstrip_nl SYM_HEADER] ++ lines ++ [Str.rstrip_nl FOOTER])
        +:+ newline).

(** The matching footprint directories, sorted. *)
Definition pretty_dirs (fs : FS) (footprints_dir : Path) : list Path :=
  sorted sort_key
    (filter (fun p => is_dir fs p = true) (rglob fs footprints_dir ".pretty")).

Definition generate_fp_lib_table (project_root footprints_dir : Path) (fs : FS)
  : result string :=
  if negb (path_exists fs footprints_dir)
  then Raise (FileNotFoundError
                ("Footprints directory not found: " +:+ as_posix footprints_dir))
  else
    let dirs := pretty_dirs fs footprints_dir in
    let name_map := make_unique_names dirs pretty_base project_root in
    base_rel ← or_raise (relative_to footprints_dir project_root)
                        (ValueError footprints_dir project_root);
    lines ← lib_lines name_map project_root dirs;
    Ok (Str.join newline
          ([Str.rstrip_nl FP_HEADER]
           ++ [make_lib_line "footprints" (KIPRJMOD +:+ as_posix base_rel)]
           ++ lines ++ [Str.rstrip_nl FOOTER])
        +:+ newline).

Section Driver.

(** [str(e)] for the exceptions raised inside the library; the text is the
    interpreter's, not the script's. *)
Variable library_message : exn -> string.

(** [str(e)] *)
Definition exn_str (e : exn) : string :=
  match e with
  | FileNotFoundError msg => msg
  | _ => library_message e
  end.

(** [main()], for the options [args] and the resolved location
    [script_path] of the script. *)
Definition main (args : Args) (script_path : Path) (w : World)
  : outcome * World :=
  let submodule_dir := parent script_path in
  let project_root := parent submodule_dir in
  let symbols_dir := child submodule_dir "symbols" in
  let footprints_dir := child submodule_dir "footprints" in
  match (sym_content ← generate_sym_lib_table project_root symbols_dir (w_fs w);
         fp_content ← generate_fp_lib_table project_root footprints_dir (w_fs w);
         Ok (sym_content, fp_content)) with
  | Raise e => (Exit 1, print_err ("Error: " +:+ exn_str e) w)
  | Ok (sym_content, fp_content) =>
      let sym_out_path := joinpath project_root (sym_out args) in
      let fp_out_path := joinpath project_root (fp_out args) in
      if dry_run args then
        (Exit 0,
         print_err fp_content
           (print_err ("[dry-run] would write: " +:+ as_posix fp_out_path)
              (print_err sym_content
                 (print_err ("[dry-run] would write: " +:+ as_posix sym_out_path)
                    w))))
      else
        match write_text (w_fs w) sym_out_path sym_content with
        | (fs1, Raise e) => (Uncaught e, mkWorld fs1 (w_stdout w) (w_stderr w))
        | (fs1, Ok _) =>
            match write_text fs1 fp_out_path fp_content with
            | (fs2, Raise e) => (Uncaught e, mkWorld fs2 (w_stdout w) (w_stderr w))
            | (fs2, Ok _) =>
                let w2 := mkWorld fs2 (w_stdout w) (w_stderr w) in
                let sym_line := "✔ Generated " +:+ as_posix sym_out_path in
                let fp_line := "✔ Generated " +:+ as_posix fp_out_path in
                if negb (stdout_encodable sym_line)
                then (Uncaught UnicodeEncodeError, w2)
                else if negb (stdout_encodable fp_line)
                then (Uncaught UnicodeEncodeError, print_out sym_line w2)
                else (Exit 0, print_out fp_line (print_out sym_line w2))
            end
        end
  end.

End Driver.

(** The order of the sort of the entries: by [sort_key]. *)
Definition key_le (p q : Path) : Prop := le_by sort_key p q.

(** The order in which equal keys would be separated by the paths
    themselves. *)
Definition key_then_path_le (p q : Path) : bool :=
  String.ltb (sort_key p) (sort_key q)
  || (String.eqb (sort_key p) (sort_key q)
      && String.leb (as_posix p) (as_posix q)).

(* ---- proofs: escaping ---- *)

Lemma append_String c s t : String c s +:+ t = String c (s +:+ t).
Proof. reflexivity. Qed.

Lemma append_empty_l t : EmptyString +:+ t = t.
Proof. reflexivity. Qed.

Lemma append_empty_r s : s +:+ EmptyString = s.
Proof. induction s as [|c s IH]; [done|]. by rewrite append_String, IH. Qed.

Lemma append_assoc s t u : (s +:+ t) +:+ u = s +:+ t +:+ u.
Proof. induction s as [|c s IH]; [done|]. by rewrite !append_String, IH. Qed.

Lemma rev_app_append s a b : String.rev_app s (a +:+ b) = String.rev_app s a +:+ b.
Proof.
  revert a. induction s as [|c s IH]; intros a; simpl; [done|].
  by rewrite <- IH.
Qed.

Lemma replace_append old new s t :
  Str.replace old new (s +:+ t) = Str.replace old new s +:+ Str.replace old new t.
Proof.
  induction s as [|c s IH]; [done|].
  rewrite append_String. simpl. rewrite IH.
  destruct (Ascii.eqb c old); [by rewrite append_assoc | done].
Qed.

Lemma kicad_escape_cons c s :
  kicad_escape (String c s) = escape_char c +:+ kicad_escape s.
Proof.
  unfold kicad_escape, escape_char. simpl.
  destruct (Ascii.eqb c backslash) eqn:Hb.
  - apply Ascii.eqb_eq in Hb as ->. by rewrite replace_append.
  - simpl. by destruct (Ascii.eqb c dquote).
Qed.

Lemma plain_kicad_escape s : plain false (kicad_escape s) = true.
Proof.
  induction s as [|c s IH]; [done|].
  rewrite kicad_escape_cons. unfold escape_char.
  destruct (Ascii.eqb c backslash) eqn:Hb; [done|].
  destruct (Ascii.eqb c dquote) eqn:Hq; [done|].
  rewrite append_String, append_empty_l. simpl. by rewrite Hq, Hb.
Qed.

Lemma split_quotes_plain escaped cur t rest :
  plain escaped t = true ->
  split_quotes escaped cur (t +:+ String dquote rest)
  = (String.rev cur +:+ t) :: split_quotes false EmptyString rest.
Proof.
  revert escaped cur. induction t as [|c t IH]; intros escaped cur Hp; simpl in Hp.
  - destruct escaped; [done|]. rewrite append_empty_l. simpl.
    by rewrite append_empty_r.
  - rewrite append_String. simpl.
    assert (Hcur : forall e, plain e t = true ->
      split_quotes e (String c cur) (t +:+ String dquote rest)
      = (String.rev cur +:+ String c t) :: split_quotes false EmptyString rest).
    { intros e He. rewrite (IH e (String c cur) He). f_equal.
      unfold String.rev. simpl.
      change (String c EmptyString) with (EmptyString +:+ String c EmptyString).
      by rewrite rev_app_append, append_assoc. }
    destruct escaped; [by apply Hcur|].
    destruct (Ascii.eqb c dquote); [done|].
    destruct (Ascii.eqb c backslash); by apply Hcur.
Qed.

Lemma unescape_kicad_escape s : unescape false (kicad_escape s) = s.
Proof.
  induction s as [|c s IH]; [done|].
  rewrite kicad_escape_cons. unfold escape_char.
  destruct (Ascii.eqb c backslash) eqn:Hb.
  - apply Ascii.eqb_eq in Hb as ->.
    rewrite !append_String, append_empty_l. simpl. by rewrite IH.
  - destruct (Ascii.eqb c dquote) eqn:Hq.
    + apply Ascii.eqb_eq in Hq as ->.
      rewrite !append_String, append_empty_l. simpl. by rewrite IH.
    + rewrite append_String, append_empty_l. simpl. by rewrite Hb, IH.
Qed.

Lemma make_lib_line_fields name uri :
  make_lib_line name uri
  = "  (lib (name " +:+ String dquote (kicad_escape name +:+ String dquote
      (")(type " +:+ String dquote ("KiCad" +:+ String dquote
      (")(uri " +:+ String dquote (kicad_escape uri +:+ String dquote
      (")(options " +:+ String dquote (EmptyString +:+ String dquote
      (")(descr " +:+ String dquote (EmptyString +:+ String dquote "))"))))))))).
Proof. reflexivity. Qed.

(* ---- proofs: sorting ---- *)

Section SortedBy.
Context {A : Type} (key : A -> string).

Local Abbreviation le_key := (le_by key).

Lemma ltb_false_le s t : String.ltb s t = false -> String.le t s.
Proof.
  unfold String.ltb, String.le, String.leb. rewrite (String.compare_antisym t s).
  by destruct (String.compare s t).
Qed.

Lemma ltb_true_le s t : String.ltb s t = true -> String.le s t.
Proof.
  unfold String.ltb, String.le, String.leb. by destruct (String.compare s t).
Qed.

Lemma ltb_irrefl s : String.ltb s s = false.
Proof.
  unfold String.ltb. pose proof (String.compare_antisym s s) as H.
  by destruct (String.compare s s).
Qed.

Lemma insert_by_perm x l : insert_by key x l ≡ₚ x :: l.
Proof.
  induction l as [|y l IH]; simpl; [done|].
  destruct (String.ltb (key y) (key x)); [|done].
  rewrite IH. apply Permutation_swap.
Qed.

Lemma sorted_perm l : sorted key l ≡ₚ l.
Proof.
  induction l as [|x l IH]; simpl; [done|].
  by rewrite insert_by_perm, IH.
Qed.

Lemma insert_by_Sorted x l :
  Sorted le_key l -> Sorted le_key (insert_by key x l).
Proof.
  induction 1 as [|y l Hs IH Hhd]; simpl.
  - repeat constructor.
  - destruct (String.ltb (key y) (key x)) eqn:E.
    + constructor; [done|].
      destruct Hhd as [|z l Hyz]; simpl.
      * constructor. by apply ltb_true_le.
      * destruct (String.ltb (key z) (key x)); constructor;
          [done | by apply ltb_true_le].
    + constructor; [by constructor|].
      constructor. by apply ltb_false_le.
Qed.

Lemma sorted_Sorted l : Sorted le_key (sorted key l).
Proof.
  induction l as [|x l IH]; simpl; [constructor|].
  by apply insert_by_Sorted.
Qed.

Lemma le_key_trans : Transitive le_key.
Proof. intros x y z Hxy Hyz. unfold le_by in *. by etrans. Qed.

Lemma sorted_StronglySorted l : StronglySorted le_key (sorted key l).
Proof.
  apply (@Sorted_StronglySorted _ _ le_key_trans), sorted_Sorted.
Qed.

Lemma insert_by_filter_key k x l :
  filter (fun y => key y = k) (insert_by key x l)
  = filter (fun y => key y = k) (x :: l).
Proof.
  induction l as [|y l IH]; simpl; [done|].
  destruct (String.ltb (key y) (key x)) eqn:E; [|done].
  rewrite filter_cons, IH, !filter_cons.
  destruct (decide (key y = k)) as [Hy|Hy], (decide (key x = k)) as [Hx|Hx];
    try done.
  rewrite Hy, Hx, ltb_irrefl in E. done.
Qed.

(** Stability: entries with one key keep the order they came in. *)
Lemma sorted_stable k l :
  filter (fun y => key y = k) (sorted key l) = filter (fun y => key y = k) l.
Proof.
  induction l as [|x l IH]; simpl; [done|].
  by rewrite insert_by_filter_key, !filter_cons, IH.
Qed.

End SortedBy.

(* ---- proofs: name assignment ---- *)

Section Names.
Context (f : Path -> string) (root : Path).

Local Abbreviation loop l := (make_unique_names_loop l f root).

Lemma loop_snoc l q : loop (l ++ [q]) = name_step f root (loop l) q.
Proof. unfold make_unique_names_loop. by rewrite foldl_snoc. Qed.

Lemma base_count_snoc b l q :
  base_count f b (l ++ [q])
  = (base_count f b l + if decide (f q = b) then 1 else 0)%nat.
Proof.
  unfold base_count. rewrite filter_app, length_app, filter_cons.
  by destruct (decide (f q = b)).
Qed.

Lemma base_count_zero b l : base_count f b l = 0%nat <-> b ∉ f <$> l.
Proof.
  unfold base_count. induction l as [|x l IH]; simpl.
  - split; [intros _; apply not_elem_of_nil | done].
  - rewrite filter_cons, not_elem_of_cons.
    destruct (decide (f x = b)) as [Hx|Hx]; simpl.
    + split; [done | intros [H _]; by destruct H].
    + rewrite IH. split; [intros ?; split; [by intros ->|done] | by intros [_ ?]].
Qed.

(** The registry counts the entries of each base name. *)
Lemma loop_seen l b :
  (loop l).1 !! b
  = if decide (base_count f b l = 0%nat) then None
    else Some (base_count f b l).
Proof.
  induction l as [|q l IH] using rev_ind; [done|].
  rewrite loop_snoc, base_count_snoc. unfold name_step.
  destruct (decide (f q = b)) as [<-|Hne].
  - rewrite IH. destruct (decide (base_count f (f q) l = 0%nat)) as [E|E]; simpl.
    + rewrite lookup_insert_eq, E. done.
    + rewrite lookup_insert_eq.
      destruct (decide _) as [E'|_]; [lia | done].
  - replace (base_count f b l + 0)%nat with (base_count f b l) by lia.
    rewrite <- IH. destruct ((loop l).1 !! f q); simpl;
      by rewrite lookup_insert_ne.
Qed.

Lemma loop_result_snoc pre p :
  (loop (pre ++ [p])).2 !! p
  = Some (if decide (f p ∈ f <$> pre)
          then f p +:+ "_" +:+ name_suffix root p else f p).
Proof.
  rewrite loop_snoc. unfold name_step. rewrite loop_seen.
  destruct (decide (base_count f (f p) pre = 0%nat)) as [E|E]; simpl.
  - rewrite lookup_insert_eq. apply base_count_zero in E.
    by rewrite decide_False.
  - rewrite lookup_insert_eq. rewrite decide_True; [done|].
    destruct (decide (f p ∈ f <$> pre)) as [|Hn]; [done|].
    by apply base_count_zero in Hn.
Qed.

Lemma loop_result_frame l q p :
  p <> q -> (loop (l ++ [q])).2 !! p = (loop l).2 !! p.
Proof.
  intros Hne. rewrite loop_snoc. unfold name_step.
  destruct ((loop l).1 !! f q); simpl; by rewrite lookup_insert_ne.
Qed.

(** The name an entry ends with is decided where it is last met. *)
Lemma loop_result_split pre p post :
  p ∉ post ->
  (loop (pre ++ p :: post)).2 !! p
  = Some (if decide (f p ∈ f <$> pre)
          then f p +:+ "_" +:+ name_suffix root p else f p).
Proof.
  induction post as [|q post IH] using rev_ind; intros Hp.
  - apply loop_result_snoc.
  - rewrite not_elem_of_app, not_elem_of_cons in Hp.
    destruct Hp as [Hp [Hq _]].
    replace (pre ++ p :: post ++ [q]) with ((pre ++ p :: post) ++ [q])
      by (by rewrite <- app_assoc).
    rewrite loop_result_frame by done. by apply IH.
Qed.

Lemma loop_result_total l p : p ∈ l -> is_Some ((loop l).2 !! p).
Proof.
  induction l as [|q l IH] using rev_ind; [by intros ?%elem_of_nil|].
  intros Hp. destruct (decide (p = q)) as [->|Hne].
  - rewrite loop_result_snoc. eauto.
  - rewrite loop_result_frame by done. apply IH.
    apply elem_of_app in Hp as [?|Hq]; [done|].
    apply list_elem_of_singleton in Hq. done.
Qed.

End Names.

(* ---- proofs: paths ---- *)

Lemma strip_prefix_app pre r : strip_prefix pre (pre ++ r) = Some r.
Proof.
  induction pre as [|x pre IH]; simpl; [by destruct r|].
  by rewrite String.eqb_refl.
Qed.

Lemma strip_prefix_Some pre l r : strip_prefix pre l = Some r -> l = pre ++ r.
Proof.
  revert l. induction pre as [|x pre IH]; intros [|y l] H; simplify_eq/=; try done.
  destruct (String.eqb x y) eqn:E; [|done].
  apply String.eqb_eq in E as ->. f_equal. by apply IH.
Qed.

Lemma relative_to_refl p : relative_to p p = Some (mkPath false []).
Proof.
  unfold relative_to. rewrite Bool.eqb_reflx.
  rewrite <- (app_nil_r (parts p)) at 2. by rewrite strip_prefix_app.
Qed.

Lemma relative_to_Some p other r :
  relative_to p other = Some r ->
  absolute p = absolute other /\ absolute r = false
  /\ parts p = parts other ++ parts r.
Proof.
  unfold relative_to. destruct (Bool.eqb _ _) eqn:E; [|done].
  apply Bool.eqb_prop in E.
  destruct (strip_prefix _ _) eqn:Hs; intros; simplify_eq/=.
  by apply strip_prefix_Some in Hs.
Qed.

Lemma relative_to_extend p other r rel :
  relative_to p other = Some r ->
  relative_to (extend p rel) other = Some (mkPath false (parts r ++ rel)).
Proof.
  intros (Ha & _ & Hp)%relative_to_Some.
  unfold relative_to, extend. simpl. rewrite Ha, Bool.eqb_reflx, Hp.
  by rewrite <- app_assoc, strip_prefix_app.
Qed.

Lemma replace_char_length (c d : ascii) s :
  String.length (Str.replace c (String d EmptyString) s) = String.length s.
Proof.
  induction s as [|a s IH]; simpl; [done|].
  destruct (Ascii.eqb a c);
    rewrite ?append_String, ?append_empty_l; simpl; by rewrite IH.
Qed.

Lemma length_zero_empty s : String.length s = 0%nat -> s = EmptyString.
Proof. by destruct s. Qed.

Lemma join_cons_nonempty sep c l : c <> EmptyString -> Str.join sep (c :: l) <> EmptyString.
Proof. destruct c; [done|]. by destruct l. Qed.

Lemma as_posix_nonempty p :
  Forall (fun c => c <> EmptyString) (parts p) -> as_posix p <> EmptyString.
Proof.
  intros Hall. unfold as_posix. destruct (absolute p); [done|].
  destruct (parts p) as [|c l] eqn:E; [done|].
  apply join_cons_nonempty. by inversion Hall.
Qed.

Lemma Forall_removelast {A} (P : A -> Prop) l :
  Forall P l -> Forall P (List.removelast l).
Proof.
  induction 1 as [|x l Hx Hl IH]; simpl; [done|].
  destruct l; [constructor | by constructor].
Qed.

Lemma name_suffix_nonempty root p :
  Forall (fun c => c <> EmptyString) (parts p) ->
  name_suffix root p <> EmptyString.
Proof.
  intros Hall Hempty. unfold name_suffix in Hempty.
  apply (f_equal String.length) in Hempty.
  rewrite !replace_char_length in Hempty. apply length_zero_empty in Hempty.
  assert (Hpar : Forall (fun c => c <> EmptyString) (parts (parent p)))
    by by apply Forall_removelast.
  destruct (relative_to (parent p) root) as [r|] eqn:Hr.
  - apply relative_to_Some in Hr as (_ & _ & Hparts).
    rewrite Hparts in Hpar. apply Forall_app in Hpar as [_ Hpar].
    by apply (as_posix_nonempty r).
  - by apply (as_posix_nonempty (parent p)).
Qed.

(* ---- proofs: the file system ---- *)

Lemma rglob_node_Dir m dir es :
  rglob_node m dir (Dir es)
  = ((fun e => child dir e.1) <$> filter (fun e => m e.1 = true) es)
    ++ (es ≫= fun e => rglob_node m (child dir e.1) e.2).
Proof.
  simpl. f_equal. induction es as [|[k n'] es IH]; simpl; [done|].
  by rewrite IH.
Qed.

Lemma wf_node_Dir es :
  wf_node (Dir es) = true
  <-> Forall (fun k => valid_name k = true) es.*1 /\ NoDup es.*1
      /\ Forall (fun e => wf_node e.2 = true) es.
Proof.
  simpl. rewrite !andb_true_iff, forallb_forall, bool_decide_eq_true.
  rewrite Forall_forall.
  assert (Hall : (fix all (es : list (string * node)) : bool :=
                    match es with
                    | [] => true
                    | (_, n') :: rest => wf_node n' && all rest
                    end) es = true
                 <-> Forall (fun e => wf_node e.2 = true) es).
  { induction es as [|[k n'] es IH]; simpl.
    - split; [constructor | done].
    - rewrite andb_true_iff, Forall_cons, IH. done. }
  rewrite Hall. setoid_rewrite list_elem_of_In. tauto.
Qed.

Lemma lookup_child_Some k es n :
  lookup_child k es = Some n -> (k, n) ∈ es.
Proof.
  induction es as [|[k' n'] es IH]; simpl; [done|].
  destruct (String.eqb k' k) eqn:E.
  - apply String.eqb_eq in E as ->. intros [= ->]. left.
  - intros ?. right. by apply IH.
Qed.

Lemma lookup_child_NoDup k es n :
  NoDup es.*1 -> (k, n) ∈ es -> lookup_child k es = Some n.
Proof.
  induction es as [|[k' n'] es IH]; simpl; [by intros _ ?%elem_of_nil|].
  intros [Hk' Hnd]%NoDup_cons [Heq|Hin]%elem_of_cons.
  - simplify_eq. by rewrite String.eqb_refl.
  - destruct (String.eqb k' k) eqn:E; [|by apply IH].
    apply String.eqb_eq in E as ->. destruct Hk'.
    apply list_elem_of_fmap. by exists (k, n).
Qed.

Lemma lookup_child_is_Some k es n :
  (k, n) ∈ es -> is_Some (lookup_child k es).
Proof.
  induction es as [|[k' n'] es IH]; simpl; [by intros ?%elem_of_nil|].
  intros [Heq|Hin]%elem_of_cons; destruct (String.eqb k' k) eqn:E; eauto.
  simplify_eq. by rewrite String.eqb_refl in E.
Qed.

Lemma descend_app n a b :
  descend n (a ++ b) = descend n a ≫= fun n' => descend n' b.
Proof.
  revert n. induction a as [|c a IH]; intros n; simpl; [done|].
  destruct n as [|es]; [done|]. destruct (lookup_child c es); [apply IH | done].
Qed.

Lemma valid_name_not_dotdot k : valid_name k = true -> k <> "..".
Proof.
  unfold valid_name. rewrite !andb_true_iff, !negb_true_iff.
  intros [[[_ _] H] _] ->. done.
Qed.

(** Below a well-formed node every node is well formed and every name valid. *)
Lemma wf_descend n rel n' :
  wf_node n = true -> descend n rel = Some n' ->
  wf_node n' = true /\ Forall (fun k => valid_name k = true) rel.
Proof.
  revert n. induction rel as [|c rel IH]; intros n Hwf Hd; simpl in Hd.
  - by simplify_eq.
  - destruct n as [|es]; [done|].
    destruct (lookup_child c es) as [nc|] eqn:Hc; [|done].
    apply wf_node_Dir in Hwf as (Hnames & _ & Hsub).
    apply lookup_child_Some in Hc.
    rewrite Forall_forall in Hsub. rewrite Forall_forall in Hnames.
    destruct (IH nc) as [? ?]; [by apply (Hsub (c, nc)) | done |].
    split; [done|]. constructor; [|done].
    apply Hnames, list_elem_of_fmap. by exists (c, nc).
Qed.

Lemma extend_child dir k rel : extend (child dir k) rel = extend dir (k :: rel).
Proof. unfold extend, child. simpl. by rewrite <- app_assoc. Qed.

Lemma child_extend dir k : child dir k = extend dir [k].
Proof. done. Qed.

(** Every path of the recursive glob is an entry found below the starting
    node by its names, the last of which matches. *)
Lemma rglob_node_below m n : forall dir p,
  wf_node n = true ->
  p ∈ rglob_node m dir n ->
  exists rel nm n',
    p = extend dir (rel ++ [nm]) /\ m nm = true
    /\ descend n (rel ++ [nm]) = Some n'.
Proof.
  induction n as [c|es IH] using node_ind; intros dir p Hwf Hp.
  - by apply elem_of_nil in Hp.
  - rewrite rglob_node_Dir in Hp. apply wf_node_Dir in Hwf as (_ & Hnd & Hsub).
    apply elem_of_app in Hp as [Hp|Hp].
    + apply list_elem_of_fmap in Hp as ([k nk] & -> & Hin).
      apply list_elem_of_filter in Hin as [Hm Hin]. simpl in *.
      destruct (lookup_child_is_Some k es nk Hin) as [n' Hn'].
      exists [], k, n'. simpl. by rewrite Hn'.
    + apply list_elem_of_bind in Hp as ([k nk] & Hp & Hin). simpl in Hp.
      rewrite Forall_forall in IH. rewrite Forall_forall in Hsub.
      destruct (IH (k, nk) Hin (child dir k) p (Hsub _ Hin) Hp)
        as (rel & nm & n' & -> & Hm & Hd).
      exists (k :: rel), nm, n'. rewrite extend_child. split; [done|].
      split; [done|]. simpl. by rewrite (lookup_child_NoDup k es nk).
Qed.

(** And every such entry is among the paths. *)
Lemma rglob_node_complete m rel : forall n dir nm n',
  m nm = true ->
  descend n (rel ++ [nm]) = Some n' ->
  extend dir (rel ++ [nm]) ∈ rglob_node m dir n.
Proof.
  induction rel as [|k rel IH]; intros n dir nm n' Hm Hd; simpl in Hd;
    destruct n as [|es]; try done.
  - destruct (lookup_child nm es) as [nk|] eqn:Hk; [|done].
    apply lookup_child_Some in Hk.
    rewrite rglob_node_Dir. apply elem_of_app. left.
    apply list_elem_of_fmap. exists (nm, nk). split; [done|].
    by apply list_elem_of_filter.
  - destruct (lookup_child k es) as [nk|] eqn:Hk; [|done].
    apply lookup_child_Some in Hk.
    rewrite rglob_node_Dir. apply elem_of_app. right.
    apply list_elem_of_bind. exists (k, nk). split; [|done]. simpl.
    change (extend dir ((k :: rel) ++ [nm]))
      with (extend dir (k :: rel ++ [nm])) in |- *.
    rewrite <- extend_child. by eapply IH.
Qed.

(** The shape alone, for any tree. *)
Lemma rglob_node_extend m n : forall dir p,
  p ∈ rglob_node m dir n -> exists rel, rel <> [] /\ p = extend dir rel.
Proof.
  induction n as [c|es IH] using node_ind; intros dir p Hp.
  - by apply elem_of_nil in Hp.
  - rewrite rglob_node_Dir in Hp. apply elem_of_app in Hp as [Hp|Hp].
    + apply list_elem_of_fmap in Hp as ([k nk] & -> & _). by exists [k].
    + apply list_elem_of_bind in Hp as ([k nk] & Hp & Hin). simpl in Hp.
      rewrite Forall_forall in IH.
      destruct (IH (k, nk) Hin (child dir k) p Hp) as (rel & _ & ->).
      exists (k :: rel). by rewrite extend_child.
Qed.

Lemma canon_app root a : forall st b,
  canon root st (a ++ b)
  = match canon root st a with
    | Some names => canon root (rev names) b
    | None => None
    end.
Proof.
  induction a as [|c a IH]; intros st b; simpl.
  - by rewrite rev_involutive.
  - destruct (descend root (rev st)) as [[|es]|]; try done.
    destruct (String.eqb c ".."); [apply IH|].
    destruct (lookup_child c es); [apply IH | done].
Qed.

Lemma canon_descend root rel : forall st d n,
  descend root (rev st) = Some d ->
  Forall (fun k => k <> "..") rel ->
  descend d rel = Some n ->
  canon root st rel = Some (rev st ++ rel)
  /\ descend root (rev st ++ rel) = Some n.
Proof.
  induction rel as [|c rel IH]; intros st d n Hst Hrel Hd; simpl in *.
  - simplify_eq. by rewrite app_nil_r.
  - destruct d as [|es]; [done|].
    destruct (lookup_child c es) as [nc|] eqn:Hc; [|done].
    apply Forall_cons in Hrel as [Hne Hrel].
    rewrite Hst. apply String.eqb_neq in Hne. rewrite Hne, Hc.
    destruct (IH (c :: st) nc n) as [H1 H2]; try done.
    { simpl. rewrite descend_app, Hst. simpl. by rewrite Hc. }
    simpl in H1, H2. rewrite <- app_assoc in H1, H2. done.
Qed.

(** A node found by its names below a directory is the node the extended
    path denotes. *)
Lemma fs_find_extend fs dir d rel n :
  fs_find fs dir = Some d ->
  Forall (fun k => k <> "..") rel ->
  descend d rel = Some n ->
  fs_find fs (extend dir rel) = Some n.
Proof.
  unfold fs_find, fs_canon, extend. simpl. intros Hdir Hrel Hd.
  assert (Hgo : forall st,
    match canon (fs_root fs) st (parts dir) with
    | Some names => descend (fs_root fs) names
    | None => None
    end = Some d ->
    match canon (fs_root fs) st (parts dir ++ rel) with
    | Some names => descend (fs_root fs) names
    | None => None
    end = Some n).
  { intros st Hst. rewrite canon_app.
    destruct (canon (fs_root fs) st (parts dir)) as [names|]; [|done].
    destruct (canon_descend (fs_root fs) rel (rev names) d n) as [-> ->];
      try done.
    by rewrite rev_involutive. }
  destruct (absolute dir); [by apply Hgo|].
  destruct (canon (fs_root fs) [] (fs_cwd fs)); [by apply Hgo | done].
Qed.

Lemma fs_find_wf fs dir d :
  wf_fs fs = true -> fs_find fs dir = Some d -> wf_node d = true.
Proof.
  unfold wf_fs, fs_find. intros Hwf Hd.
  destruct (fs_canon fs dir) as [names|]; [|done].
  by destruct (wf_descend _ _ _ Hwf Hd).
Qed.

(** The entries of a glob, with the nodes the file system has at them. *)
Lemma rglob_spec fs dir suffix p :
  wf_fs fs = true ->
  p ∈ rglob fs dir suffix
  <-> exists d rel nm n,
        fs_find fs dir = Some d /\ p = extend dir (rel ++ [nm])
        /\ Str.endswith nm suffix = true
        /\ descend d (rel ++ [nm]) = Some n.
Proof.
  intros Hwf. unfold rglob. split.
  - destruct (fs_find fs dir) as [[c|es]|] eqn:Hdir;
      try by intros ?%elem_of_nil.
    intros Hp. apply rglob_node_below in Hp as (rel & nm & n & -> & Hm & Hd);
      [|by eapply fs_find_wf].
    by exists (Dir es), rel, nm, n.
  - intros (d & rel & nm & n & -> & -> & Hm & Hd).
    destruct d as [c|es]; [by destruct rel|].
    by eapply rglob_node_complete.
Qed.

(** What [is_dir] says of an entry of a glob. *)
Lemma rglob_is_dir fs dir d rel n :
  wf_fs fs = true ->
  fs_find fs dir = Some d ->
  descend d rel = Some n ->
  is_dir fs (extend dir rel) = match n with Dir _ => true | File _ => false end.
Proof.
  intros Hwf Hdir Hd. unfold is_dir.
  rewrite (fs_find_extend fs dir d rel n); try done.
  destruct (wf_descend d rel n) as [_ Hnames]; [by eapply fs_find_wf | done |].
  eapply Forall_impl; [done|]. intros k. apply valid_name_not_dotdot.
Qed.

(* ---- proofs: generation ---- *)

Lemma bind_Ok {A B} (r : result A) (k : A -> result B) b :
  r ≫= k = Ok b <-> exists a, r = Ok a /\ k a = Ok b.
Proof.
  destruct r as [a|e]; simpl.
  - split; [by exists a | by intros (? & [= <-] & ?)].
  - split; [done | by intros (? & ? & _)].
Qed.

Lemma or_raise_Ok {A} (o : option A) e a : or_raise o e = Ok a <-> o = Some a.
Proof. destruct o; simpl; split; congruence. Qed.

Lemma lib_lines_Ok name_map root entries lines :
  lib_lines name_map root entries = Ok lines
  <-> Forall2 (entry_line name_map root) entries lines.
Proof.
  revert lines. induction entries as [|p entries IH]; intros lines; simpl.
  - split; [intros [= <-]; constructor | by intros ->%Forall2_nil_inv_l].
  - rewrite bind_Ok. setoid_rewrite bind_Ok. setoid_rewrite bind_Ok.
    setoid_rewrite or_raise_Ok. split.
    + intros (nm & Hnm & rel & Hrel & rest & Hrest & [= <-]).
      constructor; [by exists nm, rel | by apply IH].
    + intros (line & rest & (nm & rel & Hnm & Hrel & ->) & Hrest & ->)%Forall2_cons_inv_l.
      exists nm. split; [done|]. exists rel. split; [done|].
      exists rest. split; [by apply IH | done].
Qed.

Lemma lib_lines_succeeds name_map root entries :
  Forall (fun p => is_Some (name_map !! p) /\ is_Some (relative_to p root)) entries ->
  exists lines, lib_lines name_map root entries = Ok lines.
Proof.
  induction 1 as [|p entries [[nm Hnm] [rel Hrel]] _ [lines IH]]; simpl.
  - by eexists.
  - rewrite Hnm, Hrel, IH. simpl. by eexists.
Qed.

Lemma sorted_elem_of {A} (key : A -> string) l x : x ∈ sorted key l <-> x ∈ l.
Proof. by rewrite sorted_perm. Qed.

Lemma rglob_extend fs dir suffix p :
  p ∈ rglob fs dir suffix -> exists rel, rel <> [] /\ p = extend dir rel.
Proof.
  unfold rglob. destruct (fs_find fs dir) as [[c|es]|];
    try by intros ?%elem_of_nil.
  apply rglob_node_extend.
Qed.

(** The entries of both kinds lie strictly below the scanned directory. *)
Lemma sym_files_extend fs dir p :
  p ∈ sym_files fs dir -> exists rel, rel <> [] /\ p = extend dir rel.
Proof. unfold sym_files. rewrite sorted_elem_of. apply rglob_extend. Qed.

Lemma pretty_dirs_extend fs dir p :
  p ∈ pretty_dirs fs dir -> exists rel, rel <> [] /\ p = extend dir rel.
Proof.
  unfold pretty_dirs. rewrite sorted_elem_of, list_elem_of_filter.
  intros [_ Hp]. by eapply rglob_extend.
Qed.

(** Below a directory that lies under the project root, every entry has a
    name and a path relative to the root: the loop over them cannot raise. *)
Lemma entries_lines_succeed (f : Path -> string) root dir r entries :
  relative_to dir root = Some r ->
  (forall p, p ∈ entries -> exists rel, rel <> [] /\ p = extend dir rel) ->
  exists lines,
    lib_lines (make_unique_names entries f root) root entries = Ok lines.
Proof.
  intros Hr Hshape. apply lib_lines_succeeds, Forall_forall. intros p Hp. split.
  - by apply loop_result_total.
  - destruct (Hshape p Hp) as (rel & _ & ->).
    rewrite (relative_to_extend _ _ _ rel Hr). eauto.
Qed.

Lemma join_snoc sep l x :
  l <> [] -> Str.join sep (l ++ [x]) = Str.join sep l +:+ sep +:+ x.
Proof.
  induction l as [|y l IH]; [done|]. intros _.
  destruct l as [|z l]; [done|].
  change (Str.join sep ((y :: z :: l) ++ [x]))
    with (y +:+ sep +:+ Str.join sep ((z :: l) ++ [x])).
  rewrite IH by done.
  change (Str.join sep (y :: z :: l)) with (y +:+ sep +:+ Str.join sep (z :: l)).
  by rewrite !append_assoc.
Qed.

Lemma join_two_more sep h b l :
  l <> [] ->
  Str.join sep ([h; b] ++ l) = h +:+ sep +:+ b +:+ sep +:+ Str.join sep l.
Proof. by destruct l. Qed.

Lemma append_length s t :
  String.length (s +:+ t) = (String.length s + String.length t)%nat.
Proof. induction s as [|c s IH]; [done|]. rewrite append_String. simpl. lia. Qed.

(** Text put before a string that does not consist of line feeds only does
    not change the line feeds it ends with. *)
Lemma trailing_newlines_append s t :
  (Str.trailing_newlines t < String.length t)%nat ->
  Str.trailing_newlines (s +:+ t) = Str.trailing_newlines t.
Proof.
  intros Ht. induction s as [|c s IH]; [done|].
  rewrite append_String. simpl. rewrite IH.
  rewrite append_length.
  destruct (Nat.eqb_spec (Str.trailing_newlines t)
              (String.length s + String.length t)); [lia | done].
Qed.

(** A document closed by the footer ends with exactly one line feed. *)
Lemma document_trailing_newline l lines :
  l <> [] ->
  Str.trailing_newlines
    (Str.join newline (l ++ lines ++ [Str.rstrip_nl FOOTER]) +:+ newline)
  = 1%nat.
Proof.
  intros Hl. rewrite app_assoc, join_snoc by (by destruct l).
  rewrite !append_assoc.
  rewrite trailing_newlines_append.
  - rewrite trailing_newlines_append; [done | vm_compute; lia].
  - rewrite trailing_newlines_append; vm_compute; lia.
Qed.

(** What a symbol document is made of when generation returns. *)
Lemma generate_sym_Ok root dir fs doc :
  generate_sym_lib_table root dir fs = Ok doc
  <-> path_exists fs dir = true
      /\ exists lines,
           Forall2 (entry_line (make_unique_names (sym_files fs dir) stem root) root)
             (sym_files fs dir) lines
           /\ doc = Str.join newline
                      ([Str.rstrip_nl SYM_HEADER] ++ lines ++ [Str.rstrip_nl FOOTER])
                    +:+ newline.
Proof.
  unfold generate_sym_lib_table.
  destruct (path_exists fs dir); simpl; [|by split; [|intros []]].
  rewrite bind_Ok. setoid_rewrite lib_lines_Ok.
  split.
  - intros (lines & Hl & [= <-]). eauto.
  - intros (_ & lines & Hl & ->). eauto.
Qed.

(** What a footprint document is made of when generation returns. *)
Lemma generate_fp_Ok root dir fs doc :
  generate_fp_lib_table root dir fs = Ok doc
  <-> path_exists fs dir = true
      /\ exists base_rel lines,
           relative_to dir root = Some base_rel
           /\ Forall2
                (entry_line (make_unique_names (pretty_dirs fs dir) pretty_base root) root)
                (pretty_dirs fs dir) lines
           /\ doc = Str.join newline
                      ([Str.rstrip_nl FP_HEADER]
                       ++ [make_lib_line "footprints" (KIPRJMOD +:+ as_posix base_rel)]
                       ++ lines ++ [Str.rstrip_nl FOOTER])
                    +:+ newline.
Proof.
  unfold generate_fp_lib_table.
  destruct (path_exists fs dir); simpl; [|by split; [|intros []]].
  rewrite bind_Ok. setoid_rewrite bind_Ok. setoid_rewrite lib_lines_Ok.
  setoid_rewrite or_raise_Ok.
  split.
  - intros (rel & Hrel & lines & Hl & [= <-]). eauto 10.
  - intros (_ & rel & lines & Hrel & Hl & ->). eauto 10.
Qed.

(** Symbol generation returns whenever the directory exists under the
    project root. *)
Lemma generate_sym_succeeds root dir fs r :
  path_exists fs dir = true ->
  relative_to dir root = Some r ->
  exists doc, generate_sym_lib_table root dir fs = Ok doc.
Proof.
  intros Hex Hr.
  destruct (entries_lines_succeed stem root dir r (sym_files fs dir) Hr)
    as [lines Hlines]; [apply sym_files_extend|].
  eexists. apply generate_sym_Ok. split; [done|].
  exists lines. split; [by apply lib_lines_Ok | done].
Qed.

Lemma generate_fp_succeeds root dir fs r :
  path_exists fs dir = true ->
  relative_to dir root = Some r ->
  exists doc, generate_fp_lib_table root dir fs = Ok doc.
Proof.
  intros Hex Hr.
  destruct (entries_lines_succeed pretty_base root dir r (pretty_dirs fs dir) Hr)
    as [lines Hlines]; [apply pretty_dirs_extend|].
  eexists. apply generate_fp_Ok. split; [done|].
  exists r, lines. split; [done|]. split; [by apply lib_lines_Ok | done].
Qed.

(* ---- proofs: the driver ---- *)

Lemma removelast_split {A} (l : list A) : exists r, l = List.removelast l ++ r.
Proof.
  induction l as [|x l [r IH]]; [by exists []|]. simpl.
  destruct l as [|y l]; [by exists [x]|].
  exists r. simpl in *. by rewrite <- IH.
Qed.

(** A child of a directory lies under the parent of that directory. *)
Lemma relative_to_child_parent q nm : is_Some (relative_to (child q nm) (parent q)).
Proof.
  unfold relative_to, child, parent. simpl. rewrite Bool.eqb_reflx.
  destruct (removelast_split (parts q)) as [r Hr].
  rewrite Hr at 2. by rewrite <- app_assoc, strip_prefix_app.
Qed.

(* ---- proofs: discovery ---- *)

Lemma filter_ext_elem {A} (P Q : A -> Prop)
    `{!forall x, Decision (P x)} `{!forall x, Decision (Q x)} (l : list A) :
  (forall x, x ∈ l -> P x <-> Q x) -> filter P l = filter Q l.
Proof.
  induction l as [|x l IH]; intros Hext; [done|].
  rewrite !filter_cons.
  assert (HPQ : P x <-> Q x) by (apply Hext; left).
  rewrite IH by (intros y Hy; apply Hext; by right).
  destruct (decide (P x)), (decide (Q x)); tauto.
Qed.

Lemma rglob_agree fs1 fs2 dir suffix :
  fs_find fs1 dir = fs_find fs2 dir -> rglob fs1 dir suffix = rglob fs2 dir suffix.
Proof. unfold rglob. by intros ->. Qed.

Lemma path_exists_agree fs1 fs2 dir :
  fs_find fs1 dir = fs_find fs2 dir -> path_exists fs1 dir = path_exists fs2 dir.
Proof. unfold path_exists. by intros ->. Qed.

Lemma pretty_dirs_agree fs1 fs2 dir :
  wf_fs fs1 = true -> wf_fs fs2 = true ->
  fs_find fs1 dir = fs_find fs2 dir ->
  pretty_dirs fs1 dir = pretty_dirs fs2 dir.
Proof.
  intros Hwf1 Hwf2 Hdir. unfold pretty_dirs.
  rewrite <- (rglob_agree fs1 fs2 dir ".pretty" Hdir). f_equal.
  apply filter_ext_elem. intros p Hp.
  apply rglob_spec in Hp as (d & rel & nm & n & Hd & -> & _ & Hn); [|done].
  rewrite (rglob_is_dir fs1 dir d _ n), (rglob_is_dir fs2 dir d _ n);
    try done.
  by rewrite <- Hdir.
Qed.

Lemma extend_neq dir rel : rel <> [] -> extend dir rel <> dir.
Proof.
  intros Hrel Heq. apply (f_equal parts) in Heq. simpl in Heq.
  apply (f_equal length) in Heq. rewrite length_app in Heq.
  destruct rel; [done | simpl in Heq; lia].
Qed.

(* ---- proofs: discovered entries are distinct ---- *)

Lemma extend_inj dir rel1 rel2 : extend dir rel1 = extend dir rel2 -> rel1 = rel2.
Proof. unfold extend. intros [= H]. by apply app_inv_head in H. Qed.

Lemma entries_functional (es : list (string * node)) k n1 n2 :
  NoDup es.*1 -> (k, n1) ∈ es -> (k, n2) ∈ es -> n1 = n2.
Proof.
  intros Hnd H1 H2.
  apply (lookup_child_NoDup k es n1 Hnd) in H1.
  apply (lookup_child_NoDup k es n2 Hnd) in H2. congruence.
Qed.

Lemma rglob_node_NoDup m n : forall dir,
  wf_node n = true -> NoDup (rglob_node m dir n).
Proof.
  induction n as [c|es IH] using node_ind; intros dir Hwf; [constructor|].
  rewrite rglob_node_Dir. apply wf_node_Dir in Hwf as (_ & Hnd & Hsub).
  rewrite Forall_forall in IH. rewrite Forall_forall in Hsub.
  apply NoDup_app. split; [|split].
  - apply NoDup_fmap_2_strong.
    + intros [k1 n1] [k2 n2] [_ H1]%list_elem_of_filter [_ H2]%list_elem_of_filter Heq.
      simpl in Heq. rewrite !child_extend in Heq.
      apply extend_inj in Heq. simplify_eq. f_equal.
      by eapply entries_functional.
    + apply NoDup_filter. by eapply NoDup_fmap_1.
  - intros p Hp Hq.
    apply list_elem_of_fmap in Hp as ([k nk] & -> & _). simpl in Hq.
    apply list_elem_of_bind in Hq as ([k' nk'] & Hq & _). simpl in Hq.
    apply rglob_node_extend in Hq as (rel & Hrel & Heq).
    rewrite extend_child, child_extend in Heq. apply extend_inj in Heq.
    simplify_eq.
  - apply NoDup_bind.
    + intros [k1 n1] [k2 n2] p H1 H2 Hp1 Hp2. simpl in *.
      apply rglob_node_extend in Hp1 as (rel1 & _ & ->).
      apply rglob_node_extend in Hp2 as (rel2 & _ & Heq).
      rewrite !extend_child in Heq. apply extend_inj in Heq. simplify_eq.
      f_equal. by eapply entries_functional.
    + intros [k nk] Hin. simpl. apply (IH (k, nk) Hin). by apply (Hsub (k, nk)).
    + by eapply NoDup_fmap_1.
Qed.

Lemma rglob_NoDup fs dir suffix : wf_fs fs = true -> NoDup (rglob fs dir suffix).
Proof.
  intros Hwf. unfold rglob.
  destruct (fs_find fs dir) as [[c|es]|] eqn:Hdir; try constructor.
  apply rglob_node_NoDup. by eapply fs_find_wf.
Qed.

(** No entry is discovered twice. *)
Lemma sym_files_NoDup fs dir : wf_fs fs = true -> NoDup (sym_files fs dir).
Proof.
  intros Hwf. unfold sym_files. rewrite sorted_perm. by apply rglob_NoDup.
Qed.

Lemma pretty_dirs_NoDup fs dir : wf_fs fs = true -> NoDup (pretty_dirs fs dir).
Proof.
  intros Hwf. unfold pretty_dirs. rewrite sorted_perm.
  by apply NoDup_filter, rglob_NoDup.
Qed.

Lemma underscore_separators_replace s :
  Str.replace "092"%char "_" (Str.replace "/"%char "_" s) = underscore_separators s.
Proof.
  induction s as [|c s IH]; [done|].
  change (Str.replace "/"%char "_" (String c s))
    with (if Ascii.eqb c "/"%char then "_" +:+ Str.replace "/"%char "_" s
          else String c (Str.replace "/"%char "_" s)).
  change (underscore_separators (String c s))
    with (String (if Ascii.eqb c "/"%char || Ascii.eqb c backslash
                  then "_"%char else c) (underscore_separators s)).
  rewrite <- IH.
  destruct (Ascii.eqb c "/"%char) eqn:E1; [done|].
  change (Str.replace "092"%char "_" (String c ?t))
    with (if Ascii.eqb c backslash then "_" +:+ Str.replace "092"%char "_" t
          else String c (Str.replace "092"%char "_" t)).
  by destruct (Ascii.eqb c backslash).
Qed.

(* ---- proofs: keys of ASCII paths ---- *)

Lemma insert_by_ext {A} (k1 k2 : A -> string) (x : A) (l : list A) :
  k1 x = k2 x -> (forall y, y ∈ l -> k1 y = k2 y) ->
  insert_by k1 x l = insert_by k2 x l.
Proof.
  intros Hx. induction l as [|y l IH]; intros Hl; simpl; [done|].
  rewrite Hx, (Hl y) by left. rewrite IH; [done|].
  intros z Hz. apply Hl. by right.
Qed.

(** The sort looks at the keys of the elements only. *)
Lemma sorted_ext {A} (k1 k2 : A -> string) (l : list A) :
  (forall y, y ∈ l -> k1 y = k2 y) -> sorted k1 l = sorted k2 l.
Proof.
  induction l as [|x l IH]; intros Hl; simpl; [done|].
  rewrite IH by (intros y Hy; apply Hl; by right).
  apply insert_by_ext; [apply Hl; left|].
  intros y Hy%sorted_elem_of. apply Hl. by right.
Qed.

Lemma nat_of_ascii_lt c : (nat_of_ascii c < 256)%nat.
Proof. apply nat_ascii_bounded. Qed.

Lemma nat_of_ascii_inj a b : nat_of_ascii a = nat_of_ascii b -> a = b.
Proof.
  intros H. rewrite <- (ascii_nat_embedding a), <- (ascii_nat_embedding b).
  by rewrite H.
Qed.

(** Two characters fold to the same one exactly when they are the same
    letter. *)
Lemma ascii_lower_char_same_letter a b :
  Str.ascii_lower_char a = Str.ascii_lower_char b <-> same_letter a b = true.
Proof.
  unfold Str.ascii_lower_char, same_letter, is_upper.
  pose proof (nat_of_ascii_lt a) as Ha. pose proof (nat_of_ascii_lt b) as Hb.
  assert (Heq : a = b <-> nat_of_ascii a = nat_of_ascii b).
  { split; [by intros ->|apply nat_of_ascii_inj]. }
  assert (Hup : forall n c, (n + 32 < 256)%nat ->
            ascii_of_nat (n + 32) = c <-> nat_of_ascii c = (n + 32)%nat).
  { intros n c Hn. split.
    - intros <-. by apply nat_ascii_embedding.
    - intros <-. apply ascii_nat_embedding. }
  rewrite !orb_true_iff, !andb_true_iff, Ascii.eqb_eq, !Nat.eqb_eq,
    !Nat.leb_le.
  destruct ((65 <=? nat_of_ascii a)%nat && (nat_of_ascii a <=? 90)%nat) eqn:Ua;
    [apply andb_true_iff in Ua; rewrite !Nat.leb_le in Ua
    |apply andb_false_iff in Ua; rewrite !Nat.leb_gt in Ua];
    (destruct ((65 <=? nat_of_ascii b)%nat && (nat_of_ascii b <=? 90)%nat) eqn:Ub;
     [apply andb_true_iff in Ub; rewrite !Nat.leb_le in Ub
     |apply andb_false_iff in Ub; rewrite !Nat.leb_gt in Ub]).
  - split.
    + intros H. left. left. apply Heq.
      apply (f_equal nat_of_ascii) in H.
      rewrite !nat_ascii_embedding in H by lia. lia.
    + intros [[->| ?]| ?]; [done| lia | lia].
  - rewrite Hup by lia. split; [intros H; left; right; lia|].
    intros [[H| ?]| ?]; [apply Heq in H|..]; lia.
  - split.
    + intros H. symmetry in H. apply Hup in H; [|lia]. right. lia.
    + intros [[H| ?]| ?]; [apply Heq in H; lia | lia |].
      symmetry. apply Hup; lia.
  - rewrite Heq. split; [intros H; by left; left|].
    intros [[H| ?]| ?]; [done | lia | lia].
Qed.

Lemma equal_ignoring_case_lower s t :
  equal_ignoring_case s t = true <-> Str.ascii_lower s = Str.ascii_lower t.
Proof.
  revert t. induction s as [|a s IH]; intros [|b t]; simpl; try done.
  rewrite andb_true_iff, IH, <- ascii_lower_char_same_letter.
  split; [by intros [-> ->]|]. by intros [= -> ->].
Qed.

Lemma folds_ascii_ascii_lower : folds_ascii Str.ascii_lower.
Proof. by intros s _. Qed.

(** On paths of ASCII characters the sort is the one by the folding of the
    letters A to Z. *)
Lemma sorted_ascii (l : list Path) :
  folds_ascii lower ->
  Forall (fun p => Str.is_ascii (as_posix p) = true) l ->
  sorted sort_key l = sorted (fun p => Str.ascii_lower (as_posix p)) l.
Proof.
  intros Hf Hl. apply sorted_ext. intros p Hp. unfold sort_key. apply Hf.
  rewrite Forall_forall in Hl. by apply Hl.
Qed.

(* ---- the claims ---- *)

(** C1. Name assignment is a fold over the entries in order. An entry met
    for the last time at a position where no earlier entry has its base name
    keeps the base name; otherwise it gets the base name, an underscore, and
    the posix form of its parent directory relative to the project root (of
    the parent itself when it is not below the root) with every slash and
    backslash turned into an underscore. The registry ends with the number of
    entries of each base name: it goes up by one on either branch. The
    entries discovered on a well-formed file system are distinct, so each of
    them is met once. *)
Theorem make_unique_names_ordered_fold
    (f : Path -> string) (root : Path) (paths pre post : list Path) (p : Path) :
  paths = pre ++ p :: post ->
  p ∉ post ->
  make_unique_names paths f root !! p
  = Some (if decide (f p ∈ f <$> pre)
          then f p +:+ "_" +:+
               Str.replace "092"%char "_"
                 (Str.replace "/"%char "_"
                    (match relative_to (parent p) root with
                     | Some r => as_posix r
                     | None => as_posix (parent p)
                     end))
          else f p)
  /\ (forall b,
        (make_unique_names_loop paths f root).1 !! b
        = if decide (base_count f b paths = 0%nat) then None
          else Some (base_count f b paths))
  /\ (forall l q,
        make_unique_names_loop (l ++ [q]) f root
        = name_step f root (make_unique_names_loop l f root) q)
  /\ (forall s,
        Str.replace "092"%char "_" (Str.replace "/"%char "_" s)
        = underscore_separators s)
  /\ (forall fs dir,
        wf_fs fs = true -> NoDup (sym_files fs dir) /\ NoDup (pretty_dirs fs dir)).
Proof.
  intros -> Hlast. split; [|split; [|split; [|split]]].
  - unfold make_unique_names. by rewrite loop_result_split.
  - apply loop_seen.
  - apply loop_snoc.
  - apply underscore_separators_replace.
  - intros fs dir Hwf. split; [by apply sym_files_NoDup | by apply pretty_dirs_NoDup].
Qed.

(** C2. The names of one document are not always distinct, whatever
    [str.lower] does to the letters beyond ASCII. In the symbol document of
    [fs_clash] the file [sub/a.kicad_sym] is given the suffixed name that
    the file [a_lib_symbols_sub.kicad_sym] already has as its stem; in its
    footprint document the directory [footprints.pretty] is given the name
    of the base entry. *)
Theorem assigned_names_clash :
  folds_ascii lower ->
  let names := make_unique_names (sym_files Sample.fs_clash Sample.symbols_dir)
                 stem Sample.project_root in
  ~ NoDup ((fun p => names !! p)
             <$> sym_files Sample.fs_clash Sample.symbols_dir)
  /\ names !! child Sample.symbols_dir "a_lib_symbols_sub.kicad_sym"
     = Some "a_lib_symbols_sub"
  /\ names !! extend Sample.symbols_dir ["sub"; "a.kicad_sym"]
     = Some "a_lib_symbols_sub"
  /\ generate_sym_lib_table Sample.project_root Sample.symbols_dir Sample.fs_clash
     = Ok (Str.join newline
             [Str.rstrip_nl SYM_HEADER;
              make_lib_line "a" "${KIPRJMOD}/lib/symbols/a.kicad_sym";
              make_lib_line "a_lib_symbols_sub"
                "${KIPRJMOD}/lib/symbols/a_lib_symbols_sub.kicad_sym";
              make_lib_line "a_lib_symbols_sub"
                "${KIPRJMOD}/lib/symbols/sub/a.kicad_sym";
              Str.rstrip_nl FOOTER]
           +:+ newline)
  /\ generate_fp_lib_table Sample.project_root Sample.footprints_dir Sample.fs_clash
     = Ok (Str.join newline
             [Str.rstrip_nl FP_HEADER;
              make_lib_line "footprints" "${KIPRJMOD}/lib/footprints";
              make_lib_line "footprints"
                "${KIPRJMOD}/lib/footprints/footprints.pretty";
              Str.rstrip_nl FOOTER]
           +:+ newline).
Proof.
  intros Hf.
  assert (Hsym : sym_files Sample.fs_clash Sample.symbols_dir
                 = [child Sample.symbols_dir "a.kicad_sym";
                    child Sample.symbols_dir "a_lib_symbols_sub.kicad_sym";
                    extend Sample.symbols_dir ["sub"; "a.kicad_sym"]]).
  { unfold sym_files. rewrite sorted_ascii; [by vm_compute | done |].
    apply (bool_decide_unpack _). by vm_compute. }
  assert (Hfp : pretty_dirs Sample.fs_clash Sample.footprints_dir
                = [child Sample.footprints_dir "footprints.pretty"]).
  { unfold pretty_dirs. rewrite sorted_ascii; [by vm_compute | done |].
    apply (bool_decide_unpack _). by vm_compute. }
  intros names. unfold names. clear names.
  unfold generate_sym_lib_table, generate_fp_lib_table. rewrite Hsym, Hfp.
  split; [|repeat split; vm_compute; reflexivity].
  assert (E : (fun p => make_unique_names
                          [child Sample.symbols_dir "a.kicad_sym";
                           child Sample.symbols_dir "a_lib_symbols_sub.kicad_sym";
                           extend Sample.symbols_dir ["sub"; "a.kicad_sym"]]
                          stem Sample.project_root !! p)
              <$> [child Sample.symbols_dir "a.kicad_sym";
                   child Sample.symbols_dir "a_lib_symbols_sub.kicad_sym";
                   extend Sample.symbols_dir ["sub"; "a.kicad_sym"]]
              = [Some "a"; Some "a_lib_symbols_sub"; Some "a_lib_symbols_sub"])
    by (vm_compute; reflexivity).
  rewrite E. intros Hnd.
  apply NoDup_cons in Hnd as [_ Hnd]. apply NoDup_cons in Hnd as [Hnot _].
  apply Hnot. left.
Qed.

(** C3. Escaping doubles every backslash first and then puts a backslash
    before every double quote, so that each character is escaped on its own;
    and a rendered library line, cut at its unescaped quotes and unescaped,
    gives back the name and the uri it was made from. *)
Theorem kicad_escape_roundtrip (name uri : string) :
  (forall c s, kicad_escape (String c s) = escape_char c +:+ kicad_escape s)
  /\ unescape false (kicad_escape name) = name
  /\ parse_lib_line (make_lib_line name uri) = Some (name, uri).
Proof.
  split; [apply kicad_escape_cons|].
  split; [apply unescape_kicad_escape|].
  unfold parse_lib_line. rewrite make_lib_line_fields.
  rewrite split_quotes_plain by done.
  rewrite (split_quotes_plain _ _ (kicad_escape name)) by apply plain_kicad_escape.
  rewrite split_quotes_plain by done.
  rewrite (split_quotes_plain _ _ "KiCad") by done.
  rewrite split_quotes_plain by done.
  rewrite (split_quotes_plain _ _ (kicad_escape uri)) by apply plain_kicad_escape.
  rewrite split_quotes_plain by done.
  rewrite (split_quotes_plain _ _ EmptyString) by done.
  rewrite split_quotes_plain by done.
  rewrite (split_quotes_plain _ _ EmptyString) by done.
  change (String.rev EmptyString) with EmptyString.
  rewrite !append_empty_l. simpl. by rewrite !unescape_kicad_escape.
Qed.

(** C4. A missing scan directory makes generation raise the not-found
    exception whose message names the directory. In the driver the symbols
    directory is looked at first; when either directory is missing the run
    prints the message on the error stream and returns status 1, with the
    file system and the standard output as they were: both documents are
    computed before the first write, and a run that returns status 1 has
    written nothing. *)
Theorem main_missing_directory
    (library_message : exn -> string) (args : Args) (script_path : Path)
    (w : World) :
  let submodule_dir := parent script_path in
  let project_root := parent submodule_dir in
  let symbols_dir := child submodule_dir "symbols" in
  let footprints_dir := child submodule_dir "footprints" in
  path_exists (w_fs w) symbols_dir = false
  \/ path_exists (w_fs w) footprints_dir = false ->
  main library_message args script_path w
  = (Exit 1,
     mkWorld (w_fs w) (w_stdout w)
       (w_stderr w +:+ "Error: "
        +:+ (if path_exists (w_fs w) symbols_dir
             then "Footprints directory not found: " +:+ as_posix footprints_dir
             else "Symbols directory not found: " +:+ as_posix symbols_dir)
        +:+ newline))
  /\ (forall root dir fs,
        path_exists fs dir = false ->
        generate_sym_lib_table root dir fs
        = Raise (FileNotFoundError
                   ("Symbols directory not found: " +:+ as_posix dir))
        /\ generate_fp_lib_table root dir fs
           = Raise (FileNotFoundError
                      ("Footprints directory not found: " +:+ as_posix dir)))
  /\ (forall args' script_path' w0 w',
        main library_message args' script_path' w0 = (Exit 1, w') ->
        w_fs w' = w_fs w0 /\ w_stdout w' = w_stdout w0).
Proof.
  intros submodule_dir project_root symbols_dir footprints_dir Hmissing.
  split; [|split].
  - unfold main. fold submodule_dir project_root symbols_dir footprints_dir.
    destruct (path_exists (w_fs w) symbols_dir) eqn:Hsym.
    + destruct Hmissing as [?|Hfp]; [done|].
      destruct (relative_to_child_parent submodule_dir "symbols") as [r Hr].
      destruct (generate_sym_succeeds project_root symbols_dir (w_fs w) r Hsym Hr)
        as [doc ->].
      simpl. unfold generate_fp_lib_table. rewrite Hfp. simpl.
      unfold print_err, print. simpl. by rewrite !append_assoc.
    + unfold generate_sym_lib_table. rewrite Hsym. simpl.
      unfold print_err, print. simpl. by rewrite !append_assoc.
  - intros root dir fs Hex.
    unfold generate_sym_lib_table, generate_fp_lib_table. by rewrite Hex.
  - intros args' script_path' w0 w'. unfold main.
    destruct (_ ≫= _) as [[sym fp]|e]; [|by intros [= <-]].
    destruct (dry_run args'); [done|].
    destruct (write_text _ _ _) as [fs1 [[]|]]; [|done].
    destruct (write_text _ _ _) as [fs2 [[]|]]; [|done].
    destruct (negb _); [done|]. by destruct (negb _).
Qed.

(** C5. When the footprints directory exists under the project root,
    footprint generation returns, and its document is the header, then the
    line of the entry named footprints whose uri is the directory itself,
    then one line for each discovered directory in their order, whatever
    they are and however many; a symbol document has the lines of the
    discovered files and no other. *)
Theorem footprint_base_entry_first (root dir base_rel : Path) (fs : FS) :
  path_exists fs dir = true ->
  relative_to dir root = Some base_rel ->
  (exists lines,
      Forall2
        (entry_line (make_unique_names (pretty_dirs fs dir) pretty_base root) root)
        (pretty_dirs fs dir) lines
      /\ generate_fp_lib_table root dir fs
         = Ok (Str.join newline
                 ([Str.rstrip_nl FP_HEADER;
                   make_lib_line "footprints" (KIPRJMOD +:+ as_posix base_rel)]
                  ++ lines ++ [Str.rstrip_nl FOOTER])
               +:+ newline)
      /\ exists rest,
           generate_fp_lib_table root dir fs
           = Ok (FP_HEADER
                 +:+ make_lib_line "footprints" (KIPRJMOD +:+ as_posix base_rel)
                 +:+ newline +:+ rest))
  /\ (forall root' dir' fs' doc,
        generate_sym_lib_table root' dir' fs' = Ok doc ->
        exists lines,
          Forall2
            (entry_line (make_unique_names (sym_files fs' dir') stem root') root')
            (sym_files fs' dir') lines
          /\ doc = Str.join newline
                     ([Str.rstrip_nl SYM_HEADER] ++ lines ++ [Str.rstrip_nl FOOTER])
                   +:+ newline).
Proof.
  intros Hex Hrel. split.
  - destruct (generate_fp_succeeds root dir fs base_rel Hex Hrel) as [doc Hdoc].
    pose proof Hdoc as (_ & rel & lines & Hrel' & Hlines & ->)%generate_fp_Ok.
    simplify_eq. exists lines. split; [done|]. split; [done|].
    rewrite Hdoc.
    exists (Str.join newline (lines ++ [Str.rstrip_nl FOOTER]) +:+ newline).
    f_equal.
    change ([Str.rstrip_nl FP_HEADER] ++ [?b] ++ ?l)
      with ([Str.rstrip_nl FP_HEADER; b] ++ l).
    rewrite join_two_more by (by destruct lines).
    rewrite !append_assoc. reflexivity.
  - intros root' dir' fs' doc (_ & lines & Hl & ->)%generate_sym_Ok. eauto.
Qed.

(** C6 (amended). The discovered entries of either kind are the globbed
    entries put in ascending order of their keys, the posix form of the path
    lower-cased by [str.lower]; the order on keys is total; two paths are
    level in it exactly when their lower-cased forms are equal, which for
    paths of ASCII characters is when they differ at most in the case of
    letters; and the sort is stable: entries whose keys are equal stay in
    the order in which the glob met them. The library lines of a document
    follow that order. *)
Theorem discovery_sorted_by_key (fs : FS) (dir : Path) :
  ((sym_files fs dir ≡ₚ rglob fs dir ".kicad_sym")
   /\ StronglySorted key_le (sym_files fs dir)
   /\ forall k,
        filter (fun p => sort_key p = k) (sym_files fs dir)
        = filter (fun p => sort_key p = k) (rglob fs dir ".kicad_sym"))
  /\ ((pretty_dirs fs dir
         ≡ₚ filter (fun p => is_dir fs p = true) (rglob fs dir ".pretty"))
      /\ StronglySorted key_le (pretty_dirs fs dir)
      /\ forall k,
           filter (fun p => sort_key p = k) (pretty_dirs fs dir)
           = filter (fun p => sort_key p = k)
               (filter (fun p => is_dir fs p = true) (rglob fs dir ".pretty")))
  /\ (forall p q, key_le p q \/ key_le q p)
  /\ (forall p, sort_key p = lower (as_posix p))
  /\ (forall p q,
        lower (as_posix p) = lower (as_posix q) <-> key_le p q /\ key_le q p)
  /\ (folds_ascii lower ->
      forall p q,
        Str.is_ascii (as_posix p) = true ->
        Str.is_ascii (as_posix q) = true ->
        equal_ignoring_case (as_posix p) (as_posix q) = true
        <-> key_le p q /\ key_le q p)
  /\ (forall root doc,
        generate_sym_lib_table root dir fs = Ok doc ->
        exists lines,
          Forall2 (entry_line (make_unique_names (sym_files fs dir) stem root) root)
            (sym_files fs dir) lines
          /\ doc = Str.join newline
                     ([Str.rstrip_nl SYM_HEADER] ++ lines ++ [Str.rstrip_nl FOOTER])
                   +:+ newline)
  /\ (forall root doc,
        generate_fp_lib_table root dir fs = Ok doc ->
        exists base_line lines,
          Forall2
            (entry_line (make_unique_names (pretty_dirs fs dir) pretty_base root) root)
            (pretty_dirs fs dir) lines
          /\ doc = Str.join newline
                     ([Str.rstrip_nl FP_HEADER] ++ [base_line] ++ lines
                      ++ [Str.rstrip_nl FOOTER])
                   +:+ newline).
Proof.
  assert (Hlevel : forall p q,
            lower (as_posix p) = lower (as_posix q) <-> key_le p q /\ key_le q p).
  { intros p q. unfold key_le, le_by, sort_key. split.
    - intros ->. split; reflexivity.
    - intros [H1 H2]. by apply (anti_symm String.le). }
  split; [|split; [|split; [|split; [|split; [|split; [|split]]]]]].
  - split; [apply sorted_perm|]. split; [apply sorted_StronglySorted|].
    intros k. apply sorted_stable.
  - split; [apply sorted_perm|]. split; [apply sorted_StronglySorted|].
    intros k. apply sorted_stable.
  - intros p q. apply String.le_total.
  - done.
  - done.
  - intros Hfold p q Hp Hq.
    by rewrite <- Hlevel, (Hfold _ Hp), (Hfold _ Hq), equal_ignoring_case_lower.
  - intros root doc (_ & lines & Hl & ->)%generate_sym_Ok. eauto.
  - intros root doc (_ & rel & lines & _ & Hl & ->)%generate_fp_Ok. eauto.
Qed.

(** C7. For a symbols directory that exists and holds no matching entry,
    symbol generation returns the header followed by the footer and nothing
    else; and every document either generator returns ends with exactly one
    line feed. *)
Theorem empty_symbols_header_and_footer (root dir : Path) (fs : FS) :
  path_exists fs dir = true ->
  rglob fs dir ".kicad_sym" = [] ->
  generate_sym_lib_table root dir fs = Ok (SYM_HEADER +:+ FOOTER)
  /\ (forall root' dir' fs' doc,
        generate_sym_lib_table root' dir' fs' = Ok doc ->
        Str.trailing_newlines doc = 1%nat)
  /\ (forall root' dir' fs' doc,
        generate_fp_lib_table root' dir' fs' = Ok doc ->
        Str.trailing_newlines doc = 1%nat).
Proof.
  intros Hex Hnone. split; [|split].
  - unfold generate_sym_lib_table, sym_files. by rewrite Hex, Hnone.
  - intros root' dir' fs' doc (_ & lines & _ & ->)%generate_sym_Ok.
    by apply document_trailing_newline.
  - intros root' dir' fs' doc (_ & rel & lines & _ & _ & ->)%generate_fp_Ok.
    rewrite app_assoc. by apply document_trailing_newline.
Qed.

(** C8. Generation reads the scan directory and nothing else: on two
    well-formed file systems that hold the same tree at the symbols
    directory and at the footprints directory, for the same project root,
    both generators give the same result, document or exception. A second
    run on an unchanged tree therefore gives the documents of the first,
    byte for byte. *)
Theorem generation_deterministic
    (root symbols_dir footprints_dir : Path) (fs1 fs2 : FS) :
  wf_fs fs1 = true ->
  wf_fs fs2 = true ->
  fs_find fs1 symbols_dir = fs_find fs2 symbols_dir ->
  fs_find fs1 footprints_dir = fs_find fs2 footprints_dir ->
  generate_sym_lib_table root symbols_dir fs1
  = generate_sym_lib_table root symbols_dir fs2
  /\ generate_fp_lib_table root footprints_dir fs1
     = generate_fp_lib_table root footprints_dir fs2.
Proof.
  intros Hwf1 Hwf2 Hsym Hfp. split.
  - unfold generate_sym_lib_table, sym_files.
    by rewrite (path_exists_agree _ _ _ Hsym), (rglob_agree _ _ _ _ Hsym).
  - unfold generate_fp_lib_table.
    by rewrite (path_exists_agree _ _ _ Hfp), (pretty_dirs_agree fs1 fs2).
Qed.

(** C9 (amended). On a well-formed file system, discovery produces exactly
    the entries found at one or more names below the scan directory whose
    last name has the suffix (for footprints, those that are directories);
    the scan directory itself is never among them, whatever its name. *)
Theorem discovery_strictly_below (fs : FS) (dir p : Path) :
  wf_fs fs = true ->
  (p ∈ sym_files fs dir
   <-> exists d rel nm n,
         fs_find fs dir = Some d /\ p = extend dir (rel ++ [nm])
         /\ Str.endswith nm ".kicad_sym" = true
         /\ descend d (rel ++ [nm]) = Some n)
  /\ (p ∈ pretty_dirs fs dir
      <-> exists d rel nm es,
            fs_find fs dir = Some d /\ p = extend dir (rel ++ [nm])
            /\ Str.endswith nm ".pretty" = true
            /\ descend d (rel ++ [nm]) = Some (Dir es))
  /\ (dir ∉ sym_files fs dir)
  /\ (dir ∉ pretty_dirs fs dir).
Proof.
  intros Hwf. split; [|split; [|split]].
  - unfold sym_files. by rewrite sorted_elem_of, rglob_spec.
  - unfold pretty_dirs. rewrite sorted_elem_of, list_elem_of_filter, rglob_spec by done.
    split.
    + intros [Hdir (d & rel & nm & n & Hd & -> & Hm & Hn)].
      rewrite (rglob_is_dir fs dir d _ n) in Hdir by done.
      destruct n as [|es]; [done|]. by exists d, rel, nm, es.
    + intros (d & rel & nm & es & Hd & -> & Hm & Hn). split.
      * by rewrite (rglob_is_dir fs dir d _ (Dir es)).
      * by exists d, rel, nm, (Dir es).
  - intros (rel & Hrel & Heq)%sym_files_extend.
    by apply (extend_neq dir rel).
  - intros (rel & Hrel & Heq)%pretty_dirs_extend.
    by apply (extend_neq dir rel).
Qed.

(** C10. A colliding entry whose parent directory is the project root gets
    the suffix [.], the posix form of the empty relative path, hence the
    name [<base>_.]; and for paths made of non-empty components the suffix
    is never empty. *)
Theorem colliding_entry_in_project_root
    (f : Path -> string) (root : Path) (paths pre post : list Path) (p : Path) :
  paths = pre ++ p :: post ->
  p ∉ post ->
  f p ∈ f <$> pre ->
  parent p = root ->
  name_suffix root p = "."
  /\ make_unique_names paths f root !! p = Some (f p +:+ "_.")
  /\ (forall root' q,
        Forall (fun c => c <> EmptyString) (parts q) ->
        name_suffix root' q <> EmptyString).
Proof.
  intros -> Hlast Hcoll Hparent.
  assert (Hsuf : name_suffix root p = ".").
  { unfold name_suffix. by rewrite Hparent, relative_to_refl. }
  split; [done|]. split; [|apply name_suffix_nonempty].
  unfold make_unique_names. rewrite loop_result_split by done.
  by rewrite decide_True, Hsuf.
Qed.

(* ---- further properties: name assignment ---- *)

Lemma loop_result_elem (f : Path -> string) root l p :
  is_Some ((make_unique_names_loop l f root).2 !! p) -> p ∈ l.
Proof.
  induction l as [|q l IH] using rev_ind; [by intros [? ?]|].
  intros Hp. destruct (decide (p = q)) as [->|Hne].
  - apply elem_of_app. right. left.
  - rewrite loop_result_frame in Hp by done. apply elem_of_app. left. by apply IH.
Qed.

Lemma loop_result_shape (f : Path -> string) root l p n :
  (make_unique_names_loop l f root).2 !! p = Some n ->
  n = f p \/ n = f p +:+ "_" +:+ name_suffix root p.
Proof.
  induction l as [|q l IH] using rev_ind; [done|].
  destruct (decide (p = q)) as [->|Hne].
  - rewrite loop_result_snoc. intros [= <-]. destruct (decide _); auto.
  - rewrite loop_result_frame by done. apply IH.
Qed.

(** X1. When no two entries share a base name, every entry is named by its base
    name, and the names are distinct. *)
Theorem unique_bases_keep_names (f : Path -> string) (root : Path) (paths : list Path) :
  NoDup (f <$> paths) ->
  (forall p, p ∈ paths -> make_unique_names paths f root !! p = Some (f p))
  /\ NoDup ((fun p => make_unique_names paths f root !! p) <$> paths).
Proof.
  intros Hnd.
  assert (Hall : forall p, p ∈ paths ->
            make_unique_names paths f root !! p = Some (f p)).
  { intros p (pre & post & ->)%list_elem_of_split.
    rewrite fmap_app, fmap_cons in Hnd.
    apply NoDup_app in Hnd as (_ & Hpre & Hpost).
    apply NoDup_cons in Hpost as [Hpost _].
    unfold make_unique_names. rewrite loop_result_split.
    - rewrite decide_False; [done|]. intros Hin. apply (Hpre _ Hin). left.
    - intros Hin. apply Hpost. by apply list_elem_of_fmap_2. }
  split; [done|].
  apply NoDup_fmap_2_strong; [|by eapply NoDup_fmap_1].
  intros p q Hp Hq. rewrite (Hall p Hp), (Hall q Hq). intros [= Heq].
  apply list_elem_of_split in Hp as (pre & post & ->).
  rewrite fmap_app, fmap_cons in Hnd.
  apply NoDup_app in Hnd as (_ & Hpre & Hpost).
  apply NoDup_cons in Hpost as [Hpost _].
  apply elem_of_app in Hq as [Hq|Hq].
  - destruct (Hpre (f q)); [by apply list_elem_of_fmap_2 | rewrite <- Heq; left].
  - apply elem_of_cons in Hq as [->|Hq]; [done|].
    destruct Hpost. rewrite Heq. by apply list_elem_of_fmap_2.
Qed.

(** X2. The mapping has an entry for exactly the paths it was given. *)
Theorem make_unique_names_domain (f : Path -> string) (root : Path)
    (paths : list Path) (p : Path) :
  (is_Some (make_unique_names paths f root !! p) <-> p ∈ paths)
  /\ (make_unique_names paths f root !! p = None <-> p ∉ paths).
Proof.
  assert (H : is_Some (make_unique_names paths f root !! p) <-> p ∈ paths).
  { split; [apply loop_result_elem | apply loop_result_total]. }
  split; [done|]. rewrite <- H, eq_None_not_Some. done.
Qed.

(** X3. Whatever the list, a path is named by its base name alone or by its base
    name, an underscore and its suffix; nothing else is ever assigned. *)
Theorem assigned_name_shape (f : Path -> string) (root : Path)
    (paths : list Path) (p : Path) (n : string) :
  make_unique_names paths f root !! p = Some n ->
  n = f p \/ n = f p +:+ "_" +:+ name_suffix root p.
Proof. apply loop_result_shape. Qed.

Lemma underscore_separators_count c s :
  c = "/"%char \/ c = backslash -> count_char c (underscore_separators s) = 0%nat.
Proof.
  intros Hc. induction s as [|a s IH]; [done|]. simpl. rewrite IH.
  destruct (Ascii.eqb a "/"%char) eqn:E1; simpl.
  - by destruct Hc as [-> | ->].
  - destruct (Ascii.eqb a backslash) eqn:E2; simpl.
    + by destruct Hc as [-> | ->].
    + destruct Hc as [-> | ->]; by rewrite ?E1, ?E2.
Qed.

Lemma underscore_separators_length s :
  String.length (underscore_separators s) = String.length s.
Proof. induction s as [|a s IH]; simpl; [done | by rewrite IH]. Qed.

(** X4. The suffix of a colliding entry holds no slash and no backslash, and is
    as long as the posix form of the parent it is made from. *)
Theorem name_suffix_has_no_separator (root p : Path) :
  count_char "/"%char (name_suffix root p) = 0%nat
  /\ count_char backslash (name_suffix root p) = 0%nat
  /\ String.length (name_suffix root p)
     = String.length (match relative_to (parent p) root with
                      | Some r => as_posix r
                      | None => as_posix (parent p)
                      end).
Proof.
  unfold name_suffix. rewrite underscore_separators_replace.
  split; [|split].
  - apply underscore_separators_count. by left.
  - apply underscore_separators_count. by right.
  - apply underscore_separators_length.
Qed.

(* ---- further properties: escaping ---- *)

Lemma count_char_String c a s :
  count_char c (String a s)
  = ((if Ascii.eqb a c then 1 else 0) + count_char c s)%nat.
Proof. reflexivity. Qed.

Lemma count_char_append c s t :
  count_char c (s +:+ t) = (count_char c s + count_char c t)%nat.
Proof.
  induction s as [|a s IH]; [done|]. rewrite append_String. simpl. rewrite IH. lia.
Qed.

Lemma escape_char_length c :
  String.length (escape_char c)
  = (1 + (if Ascii.eqb c backslash then 1 else 0)
       + (if Ascii.eqb c dquote then 1 else 0))%nat.
Proof.
  unfold escape_char. destruct (Ascii.eqb c backslash) eqn:Hb.
  - apply Ascii.eqb_eq in Hb as ->. done.
  - by destruct (Ascii.eqb c dquote).
Qed.

Lemma kicad_escape_length s :
  String.length (kicad_escape s)
  = (String.length s + count_char backslash s + count_char dquote s)%nat.
Proof.
  induction s as [|c s IH]; [done|].
  rewrite kicad_escape_cons, append_length, escape_char_length, IH. simpl. lia.
Qed.

(** X5. Escaping adds one character for each backslash and each double quote,
    and it gives the string back unchanged exactly when it holds neither. *)
Theorem kicad_escape_identity (s : string) :
  String.length (kicad_escape s)
  = (String.length s + count_char backslash s + count_char dquote s)%nat
  /\ (kicad_escape s = s
      <-> count_char backslash s = 0%nat /\ count_char dquote s = 0%nat).
Proof.
  split; [apply kicad_escape_length|]. split.
  - intros Heq. apply (f_equal String.length) in Heq.
    rewrite kicad_escape_length in Heq. lia.
  - intros [Hb Hq]. induction s as [|c s IH]; [done|].
    simpl in Hb, Hq. rewrite kicad_escape_cons. unfold escape_char.
    destruct (Ascii.eqb c backslash); [done|].
    destruct (Ascii.eqb c dquote); [done|].
    rewrite append_String, append_empty_l. f_equal. by apply IH.
Qed.

Lemma escape_char_count_other c a :
  c <> backslash -> c <> dquote ->
  count_char c (escape_char a) = if Ascii.eqb a c then 1%nat else 0%nat.
Proof.
  intros Hb Hq. unfold escape_char.
  apply Ascii.eqb_neq in Hb. apply Ascii.eqb_neq in Hq.
  destruct (Ascii.eqb a backslash) eqn:E1.
  - apply Ascii.eqb_eq in E1 as ->. rewrite !count_char_String.
    rewrite (Ascii.eqb_sym backslash c), Hb. done.
  - destruct (Ascii.eqb a dquote) eqn:E2.
    + apply Ascii.eqb_eq in E2 as ->. rewrite !count_char_String.
      rewrite (Ascii.eqb_sym backslash c), Hb, (Ascii.eqb_sym dquote c), Hq. done.
    + rewrite count_char_String. simpl. lia.
Qed.

Lemma kicad_escape_count_other c s :
  c <> backslash -> c <> dquote ->
  count_char c (kicad_escape s) = count_char c s.
Proof.
  intros Hb Hq. induction s as [|a s IH]; [done|].
  rewrite kicad_escape_cons, count_char_append, IH, escape_char_count_other by done.
  done.
Qed.

(** X6. Line feeds are not escaped: a library line holds exactly the line feeds
    of its name and of its uri, so it is one line of the table only when
    neither holds one. *)
Theorem make_lib_line_line_feeds (name uri : string) :
  count_char line_feed (make_lib_line name uri)
  = (count_char line_feed name + count_char line_feed uri)%nat.
Proof.
  rewrite make_lib_line_fields.
  repeat (rewrite ?count_char_append;
          change (count_char line_feed (String dquote ?t))
            with (count_char line_feed t)).
  rewrite !kicad_escape_count_other by done. simpl. lia.
Qed.

(* ---- further properties: generation ---- *)

(** With a name for every entry, the loop over the entries stops at the
    first one that is not below the project root, and only there. *)
Lemma lib_lines_outcome name_map root entries :
  (forall p, p ∈ entries -> is_Some (name_map !! p)) ->
  match lib_lines name_map root entries with
  | Ok lines =>
      Forall (fun p => is_Some (relative_to p root)) entries
      /\ length lines = length entries
  | Raise e =>
      exists pre p post,
        entries = pre ++ p :: post
        /\ Forall (fun q => is_Some (relative_to q root)) pre
        /\ relative_to p root = None
        /\ e = ValueError p root
  end.
Proof.
  induction entries as [|p entries IH]; intros Hnames; simpl; [done|].
  destruct (Hnames p) as [nm Hnm]; [left|]. rewrite Hnm. simpl.
  destruct (relative_to p root) as [rel|] eqn:Hrel; simpl.
  - destruct (lib_lines name_map root entries) as [lines|e]; simpl.
    + destruct IH as [Hall Hlen]; [intros q Hq; apply Hnames; by right|].
      split; [constructor; eauto | simpl; lia].
    + destruct IH as (pre & q & post & -> & Hpre & Hq & ->);
        [intros q Hq; apply Hnames; by right|].
      exists (p :: pre), q, post. repeat split; [|done].
      constructor; eauto.
  - exists [], p, entries. by repeat split.
Qed.

(** X7. Symbol generation returns exactly when the directory exists and every
    discovered file lies below the project root. It raises the not-found
    exception for a missing directory and otherwise the [ValueError] of the
    first file, in sorted order, that is not below the root; it raises
    nothing else, in particular no [KeyError]. *)
Theorem generate_sym_outcome (root dir : Path) (fs : FS) :
  match generate_sym_lib_table root dir fs with
  | Ok doc =>
      path_exists fs dir = true
      /\ Forall (fun p => is_Some (relative_to p root)) (sym_files fs dir)
  | Raise e =>
      (path_exists fs dir = false
       /\ e = FileNotFoundError ("Symbols directory not found: " +:+ as_posix dir))
      \/ (path_exists fs dir = true
          /\ exists pre p post,
               sym_files fs dir = pre ++ p :: post
               /\ Forall (fun q => is_Some (relative_to q root)) pre
               /\ relative_to p root = None
               /\ e = ValueError p root)
  end.
Proof.
  unfold generate_sym_lib_table.
  destruct (path_exists fs dir) eqn:Hex; simpl; [|by left].
  pose proof (lib_lines_outcome
                (make_unique_names (sym_files fs dir) stem root) root
                (sym_files fs dir)) as H.
  destruct (lib_lines _ _ _) as [lines|e]; simpl.
  - split; [done|]. apply H. intros p Hp. by apply loop_result_total.
  - right. split; [done|]. apply H. intros p Hp. by apply loop_result_total.
Qed.

(** X8. Footprint generation returns exactly when the directory exists and lies
    below the project root. It raises the not-found exception for a missing
    directory and the [ValueError] of the directory itself when it is not
    below the root; it never raises for a discovered entry. *)
Theorem generate_fp_outcome (root dir : Path) (fs : FS) :
  match generate_fp_lib_table root dir fs with
  | Ok doc => path_exists fs dir = true /\ is_Some (relative_to dir root)
  | Raise e =>
      (path_exists fs dir = false
       /\ e = FileNotFoundError
                ("Footprints directory not found: " +:+ as_posix dir))
      \/ (path_exists fs dir = true /\ relative_to dir root = None
          /\ e = ValueError dir root)
  end.
Proof.
  destruct (path_exists fs dir) eqn:Hex.
  - destruct (relative_to dir root) as [r|] eqn:Hr.
    + destruct (generate_fp_succeeds root dir fs r Hex Hr) as [doc ->]. eauto.
    + unfold generate_fp_lib_table. rewrite Hex, Hr. simpl. by right.
  - unfold generate_fp_lib_table. rewrite Hex. simpl. by left.
Qed.

(* ---- further properties: the driver ---- *)

(** In the driver both scan directories lie below the project root, so
    generation returns as soon as they exist. *)
Lemma main_generation_succeeds script_path fs :
  path_exists fs (child (parent script_path) "symbols") = true ->
  path_exists fs (child (parent script_path) "footprints") = true ->
  exists sym fp,
    generate_sym_lib_table (parent (parent script_path))
      (child (parent script_path) "symbols") fs = Ok sym
    /\ generate_fp_lib_table (parent (parent script_path))
         (child (parent script_path) "footprints") fs = Ok fp.
Proof.
  intros Hsym Hfp.
  destruct (relative_to_child_parent (parent script_path) "symbols") as [r1 Hr1].
  destruct (relative_to_child_parent (parent script_path) "footprints") as [r2 Hr2].
  destruct (generate_sym_succeeds _ _ fs r1 Hsym Hr1) as [sym Hs].
  destruct (generate_fp_succeeds _ _ fs r2 Hfp Hr2) as [fp Hf].
  eauto.
Qed.

Lemma main_missing library_message args script_path w :
  path_exists (w_fs w) (child (parent script_path) "symbols") = false
  \/ path_exists (w_fs w) (child (parent script_path) "footprints") = false ->
  (main library_message args script_path w).1 = Exit 1.
Proof.
  intros Hmissing. unfold main.
  destruct (path_exists (w_fs w) (child (parent script_path) "symbols")) eqn:Hsym.
  - destruct Hmissing as [?|Hfp]; [done|].
    destruct (relative_to_child_parent (parent script_path) "symbols") as [r Hr].
    destruct (generate_sym_succeeds _ _ (w_fs w) r Hsym Hr) as [doc ->].
    simpl. unfold generate_fp_lib_table. by rewrite Hfp.
  - unfold generate_sym_lib_table. by rewrite Hsym.
Qed.

(** X9. The driver returns status 1 exactly when one of the two scan
    directories is missing: in the driver generation cannot fail otherwise,
    and a failing write or print is not caught. *)
Theorem main_returns_1_iff_missing
    (library_message : exn -> string) (args : Args) (script_path : Path)
    (w : World) :
  (main library_message args script_path w).1 = Exit 1
  <-> path_exists (w_fs w) (child (parent script_path) "symbols") = false
      \/ path_exists (w_fs w) (child (parent script_path) "footprints") = false.
Proof.
  split; [|apply main_missing].
  destruct (path_exists (w_fs w) (child (parent script_path) "symbols")) eqn:Hsym;
    [|by left].
  destruct (path_exists (w_fs w) (child (parent script_path) "footprints")) eqn:Hfp;
    [|by right].
  destruct (main_generation_succeeds script_path (w_fs w) Hsym Hfp)
    as (sym & fp & Hs & Hf).
  unfold main. rewrite Hs. simpl. rewrite Hf. simpl.
  destruct (dry_run args); [done|].
  destruct (write_text _ _ _) as [fs1 [[]|]]; [|done].
  destruct (write_text _ _ _) as [fs2 [[]|]]; [|done].
  destruct (negb _); [done|]. by destruct (negb _).
Qed.

(** X10. A preview run writes no file and prints nothing on the standard output;
    it returns 0 or 1 and no exception leaves it. When both directories
    exist it returns 0 and adds to the error stream, for the symbol table
    and then the footprint table, the destination and the document, each
    followed by a line feed. *)
Theorem main_dry_run
    (library_message : exn -> string) (args : Args) (script_path : Path)
    (w : World) :
  dry_run args = true ->
  let root := parent (parent script_path) in
  let symbols_dir := child (parent script_path) "symbols" in
  let footprints_dir := child (parent script_path) "footprints" in
  let r := main library_message args script_path w in
  w_fs r.2 = w_fs w
  /\ w_stdout r.2 = w_stdout w
  /\ (r.1 = Exit 0 \/ r.1 = Exit 1)
  /\ (path_exists (w_fs w) symbols_dir = true ->
      path_exists (w_fs w) footprints_dir = true ->
      exists sym fp,
        generate_sym_lib_table root symbols_dir (w_fs w) = Ok sym
        /\ generate_fp_lib_table root footprints_dir (w_fs w) = Ok fp
        /\ r.1 = Exit 0
        /\ w_stderr r.2
           = w_stderr w
             +:+ "[dry-run] would write: " +:+ as_posix (joinpath root (sym_out args))
             +:+ newline +:+ sym +:+ newline
             +:+ "[dry-run] would write: " +:+ as_posix (joinpath root (fp_out args))
             +:+ newline +:+ fp +:+ newline).
Proof.
  intros Hdry. cbv zeta.
  split; [|split; [|split]].
  - unfold main. rewrite Hdry. by destruct (_ ≫= _) as [[? ?]|].
  - unfold main. rewrite Hdry. by destruct (_ ≫= _) as [[? ?]|].
  - unfold main. rewrite Hdry. destruct (_ ≫= _) as [[? ?]|]; auto.
  - intros Hsym Hfp.
    destruct (main_generation_succeeds script_path (w_fs w) Hsym Hfp)
      as (sym & fp & Hs & Hf).
    exists sym, fp. split; [done|]. split; [done|].
    unfold main. rewrite Hs. simpl. rewrite Hf. simpl. rewrite Hdry. simpl.
    split; [done|]. unfold print. by rewrite !append_assoc.
Qed.

(* ---- further properties: order of the listings ---- *)

Lemma NoDup_fmap_elem_inj {A B} (f : A -> B) (l : list A) x y :
  NoDup (f <$> l) -> x ∈ l -> y ∈ l -> f x = f y -> x = y.
Proof.
  induction l as [|a l IH]; [by intros _ ?%elem_of_nil|].
  rewrite fmap_cons. intros [Ha Hnd]%NoDup_cons Hx Hy Heq.
  apply elem_of_cons in Hx as [->|Hx]; apply elem_of_cons in Hy as [->|Hy];
    try done.
  - destruct Ha. rewrite Heq. by apply list_elem_of_fmap_2.
  - destruct Ha. rewrite <- Heq. by apply list_elem_of_fmap_2.
  - by apply IH.
Qed.

(** Lists with the same elements and distinct keys sort to the same list. *)
Lemma sorted_perm_unique {A} (key : A -> string) (l1 l2 : list A) :
  l1 ≡ₚ l2 -> NoDup (key <$> l1) -> sorted key l1 = sorted key l2.
Proof.
  intros Hperm Hnd.
  apply (StronglySorted_unique_strong (le_by key)).
  - intros x1 x2 Hx1 Hx2 H12 H21.
    apply sorted_elem_of in Hx1. apply sorted_elem_of in Hx2.
    rewrite <- Hperm in Hx2.
    apply (NoDup_fmap_elem_inj key l1); try done.
    by apply (anti_symm String.le).
  - apply sorted_StronglySorted.
  - apply sorted_StronglySorted.
  - by rewrite !sorted_perm.
Qed.

(** X11. When no two discovered files have the same key, that is when
    [str.lower] makes no two of their paths equal, the symbol table does not
    depend on the order in which the directories list their entries. *)
Theorem sym_table_independent_of_listing_order
    (root dir : Path) (fs1 fs2 : FS) :
  path_exists fs1 dir = path_exists fs2 dir ->
  rglob fs1 dir ".kicad_sym" ≡ₚ rglob fs2 dir ".kicad_sym" ->
  NoDup (sort_key <$> rglob fs1 dir ".kicad_sym") ->
  generate_sym_lib_table root dir fs1 = generate_sym_lib_table root dir fs2.
Proof.
  intros Hex Hperm Hnd. unfold generate_sym_lib_table, sym_files.
  by rewrite Hex, (sorted_perm_unique sort_key _ _ Hperm Hnd).
Qed.

(** X12. The same for the footprint table and the discovered directories. *)
Theorem fp_table_independent_of_listing_order
    (root dir : Path) (fs1 fs2 : FS) :
  path_exists fs1 dir = path_exists fs2 dir ->
  filter (fun p => is_dir fs1 p = true) (rglob fs1 dir ".pretty")
    ≡ₚ filter (fun p => is_dir fs2 p = true) (rglob fs2 dir ".pretty") ->
  NoDup (sort_key
           <$> filter (fun p => is_dir fs1 p = true) (rglob fs1 dir ".pretty")) ->
  generate_fp_lib_table root dir fs1 = generate_fp_lib_table root dir fs2.
Proof.
  intros Hex Hperm Hnd. unfold generate_fp_lib_table, pretty_dirs.
  by rewrite Hex, (sorted_perm_unique sort_key _ _ Hperm Hnd).
Qed.

(* ---- further properties: base names of the discovered entries ---- *)

Lemma substring_full s : String.substring 0 (String.length s) s = s.
Proof. induction s as [|c s IH]; simpl; [done | by rewrite IH]. Qed.

Lemma substring_split s : forall m,
  (m <= String.length s)%nat ->
  s = String.substring 0 m s +:+ String.substring m (String.length s - m) s.
Proof.
  induction s as [|c s IH]; intros [|m] Hm.
  - done.
  - simpl in Hm. lia.
  - rewrite Nat.sub_0_r, substring_full. done.
  - simpl. rewrite append_String. f_equal. apply IH. simpl in Hm. lia.
Qed.

Lemma endswith_split s suffix :
  Str.endswith s suffix = true ->
  exists x, s = x +:+ suffix
            /\ String.length x = (String.length s - String.length suffix)%nat
            /\ Str.take (String.length x) s = x.
Proof.
  unfold Str.endswith, Str.take. intros [Hle Heq]%andb_true_iff.
  apply Nat.leb_le in Hle. apply String.eqb_eq in Heq.
  pose proof (substring_split s (String.length s - String.length suffix)) as Hs.
  replace (String.length s - (String.length s - String.length suffix))%nat
    with (String.length suffix) in Hs by lia.
  rewrite Heq in Hs. specialize (Hs ltac:(lia)).
  exists (String.substring 0 (String.length s - String.length suffix) s).
  assert (Hlen : String.length
                   (String.substring 0 (String.length s - String.length suffix) s)
                 = (String.length s - String.length suffix)%nat).
  { apply (f_equal String.length) in Hs. rewrite append_length in Hs. lia. }
  split; [done|]. split; [done|]. by rewrite Hlen.
Qed.

Lemma rfind_absent c s : count_char c s = 0%nat -> Str.rfind c s = None.
Proof.
  induction s as [|a s IH]; [done|]. simpl.
  destruct (Ascii.eqb a c); [done|]. intros H. by rewrite IH.
Qed.

Lemma rfind_last c x y :
  count_char c y = 0%nat ->
  Str.rfind c (x +:+ String c y) = Some (String.length x).
Proof.
  intros Hy. induction x as [|a x IH].
  - rewrite append_empty_l. simpl. by rewrite rfind_absent, Ascii.eqb_refl.
  - rewrite append_String. simpl. by rewrite IH.
Qed.

Lemma name_extend dir rel nm : name (extend dir (rel ++ [nm])) = nm.
Proof. unfold name, extend. simpl. by rewrite app_assoc, List.last_last. Qed.

(** The glob gives entries whose last name has the suffix, on any tree. *)
Lemma rglob_node_names m n : forall dir p,
  p ∈ rglob_node m dir n ->
  exists rel nm, p = extend dir (rel ++ [nm]) /\ m nm = true.
Proof.
  induction n as [c|es IH] using node_ind; intros dir p Hp.
  - by apply elem_of_nil in Hp.
  - rewrite rglob_node_Dir in Hp. apply elem_of_app in Hp as [Hp|Hp].
    + apply list_elem_of_fmap in Hp as ([k nk] & -> & Hin).
      apply list_elem_of_filter in Hin as [Hm _]. by exists [], k.
    + apply list_elem_of_bind in Hp as ([k nk] & Hp & Hin). simpl in Hp.
      rewrite Forall_forall in IH.
      destruct (IH (k, nk) Hin (child dir k) p Hp) as (rel & nm & -> & Hm).
      exists (k :: rel), nm. by rewrite extend_child.
Qed.

Lemma rglob_names fs dir suffix p :
  p ∈ rglob fs dir suffix -> Str.endswith (name p) suffix = true.
Proof.
  unfold rglob. destruct (fs_find fs dir) as [[c|es]|];
    try by intros ?%elem_of_nil.
  intros (rel & nm & -> & Hm)%rglob_node_names. by rewrite name_extend.
Qed.

(** X13. The base name of a discovered symbol file is its name without the
    extension, except for the file called [.kicad_sym], whose base name is
    its whole name. *)
Theorem sym_file_base_name (fs : FS) (dir p : Path) :
  p ∈ sym_files fs dir ->
  exists x,
    name p = x +:+ ".kicad_sym"
    /\ stem p = if decide (x = EmptyString) then ".kicad_sym" else x.
Proof.
  unfold sym_files. rewrite sorted_elem_of. intros Hp%rglob_names.
  apply endswith_split in Hp as (x & Hname & Hlen & Htake).
  exists x. split; [done|]. unfold stem. rewrite Hname at 1.
  change ".kicad_sym" with (String "."%char "kicad_sym") at 1.
  rewrite rfind_last by done.
  destruct (decide (x = EmptyString)) as [->|Hx].
  - by rewrite Hname.
  - assert (Hpos : (0 < String.length x)%nat) by (destruct x; [done | simpl; lia]).
    assert (Hn : String.length (name p) = (String.length x + 10)%nat).
    { rewrite Hname at 1. by rewrite append_length. }
    destruct (Nat.ltb_spec 0 (String.length x)); [|lia].
    destruct (Nat.ltb_spec (String.length x) (String.length (name p) - 1)); [|lia].
    done.
Qed.

(** X14. The base name of a discovered footprint directory is its name without
    [.pretty]; for the directory called [.pretty] it is the empty string. *)
Theorem pretty_dir_base_name (fs : FS) (dir p : Path) :
  p ∈ pretty_dirs fs dir ->
  exists x, name p = x +:+ ".pretty" /\ pretty_base p = x.
Proof.
  unfold pretty_dirs. rewrite sorted_elem_of, list_elem_of_filter.
  intros [_ Hp%rglob_names]. unfold pretty_base. rewrite Hp.
  apply endswith_split in Hp as (x & Hname & Hlen & Htake).
  exists x. split; [done|]. by rewrite <- Hlen.
Qed.

(* ---- further properties: writing a file ---- *)

Lemma lookup_child_set_file nm c es k :
  lookup_child k (set_file nm c es)
  = if String.eqb nm k then Some (File c) else lookup_child k es.
Proof.
  induction es as [|[k' n'] es IH]; simpl.
  - by destruct (String.eqb nm k).
  - destruct (String.eqb k' nm) eqn:E; simpl.
    + apply String.eqb_eq in E as ->. by destruct (String.eqb nm k).
    + rewrite IH. destruct (String.eqb k' k) eqn:E'; [|done].
      apply String.eqb_eq in E' as ->. rewrite String.eqb_sym in E. by rewrite E.
Qed.

Lemma write_node_cons es d ds nm c :
  write_node (Dir es) (d :: ds) nm c
  = Dir (write_entries (fun n' => write_node n' ds nm c) d es).
Proof.
  simpl. f_equal. induction es as [|[k n'] es IH]; simpl; [done|].
  by rewrite IH.
Qed.

Lemma lookup_child_write_entries f d es k :
  lookup_child k (write_entries f d es)
  = if String.eqb d k then f <$> lookup_child d es else lookup_child k es.
Proof.
  induction es as [|[k' n'] es IH]; simpl.
  - by destruct (String.eqb d k).
  - destruct (String.eqb k' d) eqn:E; simpl.
    + apply String.eqb_eq in E as ->. by destruct (String.eqb d k).
    + rewrite IH. destruct (String.eqb k' k) eqn:E'; [|done].
      apply String.eqb_eq in E' as ->. rewrite String.eqb_sym in E. by rewrite E.
Qed.

(** The file is found where it was written. *)
Lemma descend_write_node_new dirs : forall root es nm c,
  descend root dirs = Some (Dir es) ->
  descend (write_node root dirs nm c) (dirs ++ [nm]) = Some (File c).
Proof.
  induction dirs as [|d ds IH]; intros root es nm c Hd; simpl in Hd.
  - simplify_eq. simpl. by rewrite lookup_child_set_file, String.eqb_refl.
  - destruct root as [|es0]; [done|].
    destruct (lookup_child d es0) as [n'|] eqn:Hn'; [|done].
    rewrite write_node_cons. simpl.
    rewrite lookup_child_write_entries, String.eqb_refl, Hn'. simpl.
    by eapply IH.
Qed.

(** Directories stay directories and keep their names. *)
Lemma descend_write_node_dir dirs : forall root es nm c q esq,
  descend root dirs = Some (Dir es) ->
  not_dir (lookup_child nm es) ->
  descend root q = Some (Dir esq) ->
  exists esq',
    descend (write_node root dirs nm c) q = Some (Dir esq')
    /\ forall k, is_Some (lookup_child k esq) -> is_Some (lookup_child k esq').
Proof.
  induction dirs as [|d ds IH]; intros root es nm c q esq Hd Hnm Hq; simpl in Hd.
  - simplify_eq. simpl. destruct q as [|k q]; simpl in *.
    + simplify_eq. eexists. split; [done|]. intros k Hk.
      rewrite lookup_child_set_file. destruct (String.eqb nm k); eauto.
    + rewrite lookup_child_set_file.
      destruct (String.eqb nm k) eqn:E.
      * apply String.eqb_eq in E as ->.
        destruct (lookup_child k es) as [[|esk]|]; try done.
        by destruct q.
      * destruct (lookup_child k es); [|done]. eauto.
  - destruct root as [|es0]; [done|].
    destruct (lookup_child d es0) as [n'|] eqn:Hn'; [|done].
    rewrite write_node_cons. destruct q as [|k q]; simpl in *.
    + simplify_eq. eexists. split; [done|]. intros k Hk.
      rewrite lookup_child_write_entries.
      destruct (String.eqb d k); [by rewrite Hn' | done].
    + rewrite lookup_child_write_entries.
      destruct (String.eqb d k) eqn:E.
      * apply String.eqb_eq in E as <-. rewrite Hn' in Hq |- *. simpl.
        by eapply IH.
      * destruct (lookup_child k es0); [|done]. eauto.
Qed.

(** Files other than the written one stay as they are. *)
Lemma descend_write_node_file dirs : forall root es nm c q cq,
  descend root dirs = Some (Dir es) ->
  not_dir (lookup_child nm es) ->
  descend root q = Some (File cq) ->
  q <> dirs ++ [nm] ->
  descend (write_node root dirs nm c) q = Some (File cq).
Proof.
  induction dirs as [|d ds IH]; intros root es nm c q cq Hd Hnm Hq Hne;
    simpl in Hd.
  - simplify_eq. simpl. destruct q as [|k q]; simpl in *; [done|].
    rewrite lookup_child_set_file.
    destruct (String.eqb nm k) eqn:E; [|done].
    apply String.eqb_eq in E as ->.
    destruct (lookup_child k es) as [[|esk]|]; try done.
    by destruct q.
  - destruct root as [|es0]; [done|].
    destruct (lookup_child d es0) as [n'|] eqn:Hn'; [|done].
    rewrite write_node_cons. destruct q as [|k q]; simpl in *; [done|].
    rewrite lookup_child_write_entries.
    destruct (String.eqb d k) eqn:E; [|done].
    apply String.eqb_eq in E as <-. rewrite Hn' in Hq |- *. simpl.
    eapply IH; try done. intros ->. done.
Qed.

(** A path that was resolved is resolved to the same names afterwards. *)
Lemma canon_write_node root dirs es nm c comps : forall st names,
  descend root dirs = Some (Dir es) ->
  not_dir (lookup_child nm es) ->
  canon root st comps = Some names ->
  canon (write_node root dirs nm c) st comps = Some names.
Proof.
  induction comps as [|k comps IH]; intros st names Hd Hnm Hc; simpl in *;
    [done|].
  destruct (descend root (rev st)) as [[|es1]|] eqn:Hst; try done.
  destruct (descend_write_node_dir dirs root es nm c (rev st) es1 Hd Hnm Hst)
    as (es1' & -> & Hkeep).
  destruct (String.eqb k ".."); [by apply IH|].
  destruct (lookup_child k es1) as [n1|] eqn:Hk; [|done].
  destruct (Hkeep k) as [n1' ->]; [eauto|]. by apply IH.
Qed.

Lemma fs_find_canon fs q n :
  fs_find fs q = Some n ->
  exists names, fs_canon fs q = Some names /\ descend (fs_root fs) names = Some n.
Proof.
  unfold fs_find. destruct (fs_canon fs q) as [names|]; [|done]. eauto.
Qed.

Lemma fs_canon_write fs dirs es nm c q names :
  descend (fs_root fs) dirs = Some (Dir es) ->
  not_dir (lookup_child nm es) ->
  fs_canon fs q = Some names ->
  fs_canon (mkFS (write_node (fs_root fs) dirs nm c) (fs_cwd fs)) q = Some names.
Proof.
  intros Hd Hnm. unfold fs_canon. simpl.
  destruct (absolute q); [by apply canon_write_node with es|].
  destruct (canon (fs_root fs) [] (fs_cwd fs)) as [here|] eqn:Hcwd; [|done].
  rewrite (canon_write_node _ dirs es nm c _ _ _ Hd Hnm Hcwd).
  by apply canon_write_node with es.
Qed.

(** Resolving one more name that is found where the resolution arrived. *)
Lemma canon_snoc_found root st init dirs nm n :
  canon root st init = Some dirs ->
  nm <> ".." ->
  descend root (dirs ++ [nm]) = Some n ->
  canon root st (init ++ [nm]) = Some (dirs ++ [nm]).
Proof.
  intros Hinit Hne Hd. rewrite canon_app, Hinit.
  change (canon root (rev dirs) [nm])
    with (match descend root (rev (rev dirs)) with
          | Some (Dir es) =>
              if String.eqb nm ".." then canon root (tail (rev dirs)) []
              else match lookup_child nm es with
                   | Some _ => canon root (nm :: rev dirs) []
                   | None => None
                   end
          | _ => None
          end).
  rewrite (rev_involutive dirs). rewrite descend_app in Hd.
  destruct (descend root dirs) as [[|es]|]; try done. simpl in Hd.
  apply String.eqb_neq in Hne. rewrite Hne.
  destruct (lookup_child nm es); [|done].
  simpl. by rewrite (rev_involutive dirs).
Qed.

Lemma fs_canon_snoc_found fs p q dirs nm n :
  absolute q = absolute p ->
  parts p = parts q ++ [nm] ->
  fs_canon fs q = Some dirs ->
  nm <> ".." ->
  descend (fs_root fs) (dirs ++ [nm]) = Some n ->
  fs_canon fs p = Some (dirs ++ [nm]).
Proof.
  destruct p as [ap pp], q as [aq pq]. simpl. intros -> -> Hq Hne Hd.
  unfold fs_canon in *. simpl in *. destruct ap.
  - by eapply canon_snoc_found.
  - destruct (canon (fs_root fs) [] (fs_cwd fs)) as [here|]; [|done].
    by eapply canon_snoc_found.
Qed.

(** What opening a file for writing has found. *)
Lemma open_for_writing_Ok fs p dirs nm :
  open_for_writing fs p = Ok (dirs, nm) ->
  exists es,
    descend (fs_root fs) dirs = Some (Dir es)
    /\ not_dir (lookup_child nm es)
    /\ nm <> ".."
    /\ fs_canon fs (parent p) = Some dirs
    /\ parts p = parts (parent p) ++ [nm].
Proof.
  unfold open_for_writing.
  destruct (rev (parts p)) as [|nm' r] eqn:Hrev; [done|].
  destruct (String.eqb nm' "..") eqn:Hdd; [done|].
  destruct (fs_canon fs (parent p)) as [dirs'|] eqn:Hcanon; [|done].
  destruct (descend (fs_root fs) dirs') as [[|es]|] eqn:Hd; try done.
  intros Hok.
  assert (Hnm : not_dir (lookup_child nm' es)).
  { destruct (lookup_child nm' es) as [[|]|]; done. }
  assert (Heq : dirs' = dirs /\ nm' = nm).
  { destruct (lookup_child nm' es) as [[|]|]; by simplify_eq. }
  destruct Heq as [-> ->]. exists es.
  split; [done|]. split; [done|]. split; [by apply String.eqb_neq|].
  split; [done|].
  apply (f_equal (@rev _)) in Hrev. rewrite rev_involutive in Hrev.
  simpl in Hrev. unfold parent. simpl. rewrite Hrev.
  by rewrite List.removelast_last.
Qed.

Lemma open_for_writing_Raise fs p e :
  open_for_writing fs p = Raise e -> e = OSError p.
Proof.
  unfold open_for_writing.
  destruct (rev (parts p)) as [|nm r]; [by intros [= <-]|].
  destruct (String.eqb nm ".."); [by intros [= <-]|].
  destruct (fs_canon fs (parent p)) as [dirs|]; [|by intros [= <-]].
  destruct (descend (fs_root fs) dirs) as [[|es]|]; try by intros [= <-].
  destruct (lookup_child nm es) as [[|]|]; try done; by intros [= <-].
Qed.

(** The file system with the text [c] in the file that was opened: the file
    is found at its path with that text, every path is resolved as before,
    and the other files are as they were. *)
Lemma opened_file_written fs p dirs nm c :
  open_for_writing fs p = Ok (dirs, nm) ->
  let fs' := mkFS (write_node (fs_root fs) dirs nm c) (fs_cwd fs) in
  fs_find fs' p = Some (File c)
  /\ (forall q names, fs_canon fs q = Some names -> fs_canon fs' q = Some names)
  /\ (forall q cq,
        fs_find fs q = Some (File cq) ->
        fs_canon fs' q <> fs_canon fs' p ->
        fs_find fs' q = Some (File cq)).
Proof.
  intros (es & Hd & Hnm & Hdd & Hcanon & Hparts)%open_for_writing_Ok fs'.
  assert (Hkeep : forall q names,
            fs_canon fs q = Some names -> fs_canon fs' q = Some names).
  { intros q names. by apply fs_canon_write with es. }
  pose proof (descend_write_node_new dirs (fs_root fs) es nm c Hd) as Hnew.
  assert (Hp : fs_canon fs' p = Some (dirs ++ [nm])).
  { eapply (fs_canon_snoc_found fs' p (parent p)); try done. by apply Hkeep. }
  split; [|split; [done|]].
  - unfold fs_find. by rewrite Hp.
  - intros q cq (names & Hq & Hfile)%fs_find_canon Hne.
    rewrite (Hkeep q names Hq), Hp in Hne.
    unfold fs_find. rewrite (Hkeep q names Hq). simpl.
    eapply descend_write_node_file; try done. congruence.
Qed.

(** What a call of [write_text] leaves behind, by what it returned or
    raised. *)
Lemma write_text_effect fs p c fs' r :
  write_text fs p c = (fs', r) ->
  (r = Raise (OSError p) /\ fs' = fs)
  \/ (((r = Ok tt /\ encodable c = true /\ fs_find fs' p = Some (File c))
       \/ (r = Raise UnicodeEncodeError /\ encodable c = false
           /\ fs_find fs' p = Some (File EmptyString)))
      /\ (forall q names, fs_canon fs q = Some names -> fs_canon fs' q = Some names)
      /\ (forall q cq,
            fs_find fs q = Some (File cq) ->
            fs_canon fs' q <> fs_canon fs' p ->
            fs_find fs' q = Some (File cq))).
Proof.
  unfold write_text.
  destruct (open_for_writing fs p) as [[dirs nm]|e] eqn:Hopen.
  - destruct (encodable c) eqn:Henc; intros [= <- <-]; right.
    + destruct (opened_file_written fs p dirs nm c Hopen) as (H1 & H2 & H3).
      split; [left; by repeat split | by split].
    + destruct (opened_file_written fs p dirs nm EmptyString Hopen)
        as (H1 & H2 & H3).
      split; [right; by repeat split | by split].
  - intros [= <- <-]. left. split; [|done].
    by rewrite (open_for_writing_Raise _ _ _ Hopen).
Qed.

(* ---- further properties: the write stage of the driver ---- *)

Lemma main_generation_cases library_message args script_path w :
  (main library_message args script_path w).1 = Exit 1
  \/ exists sym fp,
       generate_sym_lib_table (parent (parent script_path))
         (child (parent script_path) "symbols") (w_fs w) = Ok sym
       /\ generate_fp_lib_table (parent (parent script_path))
            (child (parent script_path) "footprints") (w_fs w) = Ok fp.
Proof.
  unfold main.
  destruct (generate_sym_lib_table _ _ _) as [sym|e]; simpl; [|by left].
  destruct (generate_fp_lib_table _ _ _) as [fp|e]; simpl; [|by left].
  right. eauto.
Qed.

Lemma main_write_stage library_message args script_path w sym fp :
  dry_run args = false ->
  generate_sym_lib_table (parent (parent script_path))
    (child (parent script_path) "symbols") (w_fs w) = Ok sym ->
  generate_fp_lib_table (parent (parent script_path))
    (child (parent script_path) "footprints") (w_fs w) = Ok fp ->
  main library_message args script_path w
  = match write_text (w_fs w)
            (joinpath (parent (parent script_path)) (sym_out args)) sym with
    | (fs1, Raise e) => (Uncaught e, mkWorld fs1 (w_stdout w) (w_stderr w))
    | (fs1, Ok _) =>
        match write_text fs1
                (joinpath (parent (parent script_path)) (fp_out args)) fp with
        | (fs2, Raise e) => (Uncaught e, mkWorld fs2 (w_stdout w) (w_stderr w))
        | (fs2, Ok _) =>
            let w2 := mkWorld fs2 (w_stdout w) (w_stderr w) in
            let sym_line :=
              "✔ Generated "
              +:+ as_posix (joinpath (parent (parent script_path)) (sym_out args)) in
            let fp_line :=
              "✔ Generated "
              +:+ as_posix (joinpath (parent (parent script_path)) (fp_out args)) in
            if stdout_encodable sym_line
            then if stdout_encodable fp_line
                 then (Exit 0, print_out fp_line (print_out sym_line w2))
                 else (Uncaught UnicodeEncodeError, print_out sym_line w2)
            else (Uncaught UnicodeEncodeError, w2)
        end
    end.
Proof.
  intros Hdry Hs Hf. unfold main. rewrite Hs. simpl. rewrite Hf. simpl.
  rewrite Hdry.
  destruct (write_text (w_fs w) _ sym) as [fs1 [[]|e1]]; [|done].
  destruct (write_text fs1 _ fp) as [fs2 [[]|e2]]; [|done].
  cbv zeta. destruct (stdout_encodable _); [|done].
  by destruct (stdout_encodable _).
Qed.

(** X15. A run that returns 0 without the preview option has generated both
    documents and left the footprint table at its destination. The symbol
    table is at its destination too, unless both destinations are one
    file, which then holds the footprint table. Two lines are printed on
    the standard output and nothing on the error stream. *)
Theorem main_writes_tables
    (library_message : exn -> string) (args : Args) (script_path : Path)
    (w w' : World) :
  dry_run args = false ->
  main library_message args script_path w = (Exit 0, w') ->
  let root := parent (parent script_path) in
  let sym_path := joinpath root (sym_out args) in
  let fp_path := joinpath root (fp_out args) in
  exists sym fp,
    generate_sym_lib_table root (child (parent script_path) "symbols") (w_fs w)
      = Ok sym
    /\ generate_fp_lib_table root (child (parent script_path) "footprints") (w_fs w)
       = Ok fp
    /\ fs_find (w_fs w') fp_path = Some (File fp)
    /\ fs_find (w_fs w') sym_path
       = Some (File (if decide (fs_canon (w_fs w') sym_path
                                = fs_canon (w_fs w') fp_path)
                     then fp else sym))
    /\ w_stdout w'
       = w_stdout w +:+ "✔ Generated " +:+ as_posix sym_path +:+ newline
         +:+ "✔ Generated " +:+ as_posix fp_path +:+ newline
    /\ w_stderr w' = w_stderr w.
Proof.
  intros Hdry Hmain. cbv zeta.
  destruct (main_generation_cases library_message args script_path w)
    as [H1|(sym & fp & Hs & Hf)]; [by rewrite Hmain in H1|].
  exists sym, fp. split; [done|]. split; [done|].
  rewrite (main_write_stage _ _ _ _ sym fp Hdry Hs Hf) in Hmain.
  destruct (write_text (w_fs w) _ sym) as [fs1 [[]|e1]] eqn:Hw1; [|done].
  destruct (write_text fs1 _ fp) as [fs2 [[]|e2]] eqn:Hw2; [|done].
  cbv zeta in Hmain.
  destruct (stdout_encodable _); [|done].
  destruct (stdout_encodable _); [|done].
  injection Hmain as <-. simpl.
  apply write_text_effect in Hw1 as [[? _]|[[(_ & _ & Hsym)|(? & _)] _]];
    try done.
  apply write_text_effect in Hw2 as [[? _]|[[(_ & _ & Hfp)|(? & _)] [_ Hold]]];
    try done.
  split; [done|]. split; [|split; [|done]].
  - destruct (decide _) as [Heq|Hne].
    + rewrite <- Hfp. unfold fs_find. by rewrite Heq.
    + by apply Hold.
  - unfold print. by rewrite !append_assoc.
Qed.

(** X16. Such a run leaves every other file as it was: a file that is neither of
    the two destinations has the content it had. *)
Theorem main_leaves_other_files
    (library_message : exn -> string) (args : Args) (script_path : Path)
    (w w' : World) (q : Path) (content : string) :
  dry_run args = false ->
  main library_message args script_path w = (Exit 0, w') ->
  fs_find (w_fs w) q = Some (File content) ->
  fs_canon (w_fs w') q
    <> fs_canon (w_fs w') (joinpath (parent (parent script_path)) (sym_out args)) ->
  fs_canon (w_fs w') q
    <> fs_canon (w_fs w') (joinpath (parent (parent script_path)) (fp_out args)) ->
  fs_find (w_fs w') q = Some (File content).
Proof.
  intros Hdry Hmain Hq Hne1 Hne2.
  destruct (main_generation_cases library_message args script_path w)
    as [H1|(sym & fp & Hs & Hf)]; [by rewrite Hmain in H1|].
  rewrite (main_write_stage _ _ _ _ sym fp Hdry Hs Hf) in Hmain.
  destruct (write_text (w_fs w) _ sym) as [fs1 [[]|e1]] eqn:Hw1; [|done].
  destruct (write_text fs1 _ fp) as [fs2 [[]|e2]] eqn:Hw2; [|done].
  cbv zeta in Hmain.
  destruct (stdout_encodable _); [|done].
  destruct (stdout_encodable _); [|done].
  injection Hmain as <-. simpl in *.
  apply write_text_effect in Hw1
    as [[? _]|[[(_ & _ & Hsym)|(? & _)] [Hkeep1 Hold1]]]; try done.
  apply write_text_effect in Hw2
    as [[? _]|[[(_ & _ & Hfp)|(? & _)] [Hkeep2 Hold2]]]; try done.
  apply Hold2; [|done]. apply Hold1; [done|].
  intros Heq. apply Hne1.
  destruct (fs_find_canon _ _ _ Hq) as (names & Hcq & _).
  pose proof (Hkeep1 _ _ Hcq) as Hcq1.
  rewrite Hcq1 in Heq. symmetry in Heq.
  by rewrite (Hkeep2 _ _ Hcq1), (Hkeep2 _ _ Heq).
Qed.

(** X17. The two writes and the two prints are not one step. An exception
    leaves the driver only after both documents were generated, from a write
    or from a print on the standard output, and nothing is printed on the
    error stream.
    - The symbol table cannot be written: it is the [OSError] of a
      destination that cannot be opened, and then no file has changed, or
      the [UnicodeEncodeError] of a document that cannot be encoded, and
      then the destination has been created or emptied by the opening.
    - The footprint table cannot be written, in the same two ways: the
      symbol table is already at its destination.
    - A line cannot be encoded for the standard output: both tables are at
      their destinations, and the first line is printed when it is the
      second that fails. *)
Theorem main_uncaught_write
    (library_message : exn -> string) (args : Args) (script_path : Path)
    (w w' : World) (e : exn) :
  main library_message args script_path w = (Uncaught e, w') ->
  let root := parent (parent script_path) in
  let sym_path := joinpath root (sym_out args) in
  let fp_path := joinpath root (fp_out args) in
  let sym_line := "✔ Generated " +:+ as_posix sym_path in
  let fp_line := "✔ Generated " +:+ as_posix fp_path in
  dry_run args = false
  /\ w_stderr w' = w_stderr w
  /\ exists sym fp,
       generate_sym_lib_table root (child (parent script_path) "symbols") (w_fs w)
         = Ok sym
       /\ generate_fp_lib_table root (child (parent script_path) "footprints")
            (w_fs w) = Ok fp
       /\ ((w_stdout w' = w_stdout w
            /\ ((e = OSError sym_path /\ w_fs w' = w_fs w)
                \/ (e = UnicodeEncodeError /\ encodable sym = false
                    /\ fs_find (w_fs w') sym_path = Some (File EmptyString))))
           \/ (w_stdout w' = w_stdout w
               /\ encodable sym = true
               /\ ((e = OSError fp_path
                    /\ fs_find (w_fs w') sym_path = Some (File sym))
                   \/ (e = UnicodeEncodeError /\ encodable fp = false
                       /\ fs_find (w_fs w') fp_path = Some (File EmptyString)
                       /\ (fs_canon (w_fs w') sym_path
                             <> fs_canon (w_fs w') fp_path ->
                           fs_find (w_fs w') sym_path = Some (File sym)))))
           \/ (e = UnicodeEncodeError
               /\ encodable sym = true /\ encodable fp = true
               /\ fs_find (w_fs w') fp_path = Some (File fp)
               /\ (fs_canon (w_fs w') sym_path <> fs_canon (w_fs w') fp_path ->
                   fs_find (w_fs w') sym_path = Some (File sym))
               /\ ((stdout_encodable sym_line = false
                    /\ w_stdout w' = w_stdout w)
                   \/ (stdout_encodable sym_line = true
                       /\ stdout_encodable fp_line = false
                       /\ w_stdout w' = w_stdout w +:+ sym_line +:+ newline)))).
Proof.
  intros Hmain. cbv zeta.
  destruct (main_generation_cases library_message args script_path w)
    as [H1|(sym & fp & Hs & Hf)]; [by rewrite Hmain in H1|].
  destruct (dry_run args) eqn:Hdry.
  { unfold main in Hmain. rewrite Hs in Hmain. simpl in Hmain.
    rewrite Hf in Hmain. simpl in Hmain. by rewrite Hdry in Hmain. }
  split; [done|].
  rewrite (main_write_stage _ _ _ _ sym fp Hdry Hs Hf) in Hmain.
  destruct (write_text (w_fs w) _ sym) as [fs1 [[]|e1]] eqn:Hw1.
  - apply write_text_effect in Hw1
      as [[? _]|[[(_ & Henc1 & Hsym)|(? & _)] _]]; try done.
    destruct (write_text fs1 _ fp) as [fs2 [[]|e2]] eqn:Hw2.
    + apply write_text_effect in Hw2
        as [[? _]|[[(_ & Henc2 & Hfp)|(? & _)] [_ Hold]]]; try done.
      cbv zeta in Hmain.
      destruct (stdout_encodable _) eqn:Hp1.
      * destruct (stdout_encodable _) eqn:Hp2 in Hmain; [done|].
        injection Hmain as <- <-. simpl. split; [done|].
        exists sym, fp. split; [done|]. split; [done|].
        right. right. repeat split; try done.
        -- intros Hne. by apply Hold.
        -- right. by repeat split.
      * injection Hmain as <- <-. simpl. split; [done|].
        exists sym, fp. split; [done|]. split; [done|].
        right. right. repeat split; try done.
        -- intros Hne. by apply Hold.
        -- by left.
    + injection Hmain as <- <-. simpl. split; [done|].
      exists sym, fp. split; [done|]. split; [done|].
      right. left. split; [done|]. split; [done|].
      apply write_text_effect in Hw2
        as [[[= ->] ->]|[[(? & _)|([= ->] & Henc2 & Hfp)] [_ Hold]]]; try done.
      * by left.
      * right. repeat split; try done. intros Hne. by apply Hold.
  - injection Hmain as <- <-. simpl. split; [done|].
    exists sym, fp. split; [done|]. split; [done|].
    left. split; [done|].
    apply write_text_effect in Hw1
      as [[[= ->] ->]|[[(? & _)|([= ->] & Henc1 & Hsym)] _]]; try done.
    + by left.
    + right. by repeat split.
Qed.

(* ---- further properties: a scan path that is a file ---- *)

Lemma rglob_of_file fs dir suffix c :
  fs_find fs dir = Some (File c) -> rglob fs dir suffix = [].
Proof. unfold rglob. by intros ->. Qed.

(** X18. A scan path that exists as a regular file is not an error: nothing is
    discovered below it, the symbol table is the header and the footer, and
    the footprint table has the base entry only. *)
Theorem scan_path_regular_file (root dir r : Path) (fs : FS) (c : string) :
  fs_find fs dir = Some (File c) ->
  relative_to dir root = Some r ->
  generate_sym_lib_table root dir fs = Ok (SYM_HEADER +:+ FOOTER)
  /\ generate_fp_lib_table root dir fs
     = Ok (FP_HEADER +:+ make_lib_line "footprints" (KIPRJMOD +:+ as_posix r)
           +:+ newline +:+ FOOTER).
Proof.
  intros Hfile Hr.
  assert (Hex : path_exists fs dir = true) by (unfold path_exists; by rewrite Hfile).
  split.
  - unfold generate_sym_lib_table, sym_files.
    by rewrite Hex, (rglob_of_file _ _ _ c Hfile).
  - unfold generate_fp_lib_table, pretty_dirs.
    rewrite Hex, (rglob_of_file _ _ _ c Hfile), Hr. simpl. f_equal.
    rewrite !append_assoc. reflexivity.
Qed.

End Interpreter.

(* ---- the claims on the sample trees ---- *)

Lemma make_unique_names_ordered_fold_witness :
  [Sample.sym_a; Sample.sym_sub_a] = [Sample.sym_a] ++ Sample.sym_sub_a :: []
  /\ (Sample.sym_sub_a ∉ [])
  /\ make_unique_names [Sample.sym_a; Sample.sym_sub_a] stem Sample.project_root
       !! Sample.sym_sub_a
     = Some "a_lib_symbols_sub".
Proof.
  split; [reflexivity|]. split; [apply not_elem_of_nil|].
  rewrite (proj1 (make_unique_names_ordered_fold Str.ascii_lower stem
                    Sample.project_root
                    [Sample.sym_a; Sample.sym_sub_a] [Sample.sym_a] []
                    Sample.sym_sub_a eq_refl (not_elem_of_nil _))).
  vm_compute. reflexivity.
Defined.

Lemma assigned_names_clash_witness :
  folds_ascii Str.ascii_lower
  /\ ~ NoDup ((fun p =>
                 make_unique_names
                   (sym_files Str.ascii_lower Sample.fs_clash Sample.symbols_dir)
                   stem Sample.project_root !! p)
                <$> sym_files Str.ascii_lower Sample.fs_clash Sample.symbols_dir).
Proof.
  assert (Hfold : folds_ascii Str.ascii_lower) by (intros s _; reflexivity).
  split; [exact Hfold|].
  exact (proj1 (assigned_names_clash Str.ascii_lower Hfold)).
Defined.

Lemma main_missing_directory_witness :
  (path_exists Sample.fs_empty (child (parent Sample.script_path) "symbols") = false
   \/ path_exists Sample.fs_empty (child (parent Sample.script_path) "footprints")
      = false)
  /\ main Str.ascii_lower Sample.all_encodable Sample.all_encodable
       Sample.no_message Sample.args Sample.script_path
       (Sample.world Sample.fs_empty)
     = (Exit 1,
        mkWorld Sample.fs_empty EmptyString
          ("Error: Footprints directory not found: /p/lib/footprints" +:+ newline)).
Proof.
  assert (Hmissing :
    path_exists Sample.fs_empty (child (parent Sample.script_path) "symbols") = false
    \/ path_exists Sample.fs_empty (child (parent Sample.script_path) "footprints")
       = false) by (right; reflexivity).
  split; [exact Hmissing|].
  exact (proj1 (main_missing_directory Str.ascii_lower Sample.all_encodable
                  Sample.all_encodable Sample.no_message Sample.args
                  Sample.script_path (Sample.world Sample.fs_empty) Hmissing)).
Defined.

Lemma footprint_base_entry_first_witness :
  path_exists Sample.fs_case Sample.footprints_dir = true
  /\ relative_to Sample.footprints_dir Sample.project_root
     = Some (mkPath false ["lib"; "footprints"])
  /\ pretty_dirs Str.ascii_lower Sample.fs_case Sample.footprints_dir = []
  /\ generate_fp_lib_table Str.ascii_lower Sample.project_root
       Sample.footprints_dir Sample.fs_case
     = Ok (FP_HEADER
           +:+ make_lib_line "footprints" "${KIPRJMOD}/lib/footprints"
           +:+ newline +:+ FOOTER).
Proof.
  split; [reflexivity|]. split; [reflexivity|]. split; [reflexivity|].
  destruct (footprint_base_entry_first Str.ascii_lower Sample.project_root
              Sample.footprints_dir
              (mkPath false ["lib"; "footprints"]) Sample.fs_case
              eq_refl eq_refl) as [(lines & Hlines & Hdoc & _) _].
  apply Forall2_nil_inv_l in Hlines. rewrite Hlines in Hdoc. exact Hdoc.
Defined.

(** C6, as stated, fails, whatever [str.lower] does to the letters that are
    not ASCII: entries whose keys are equal are not put in the order of
    their paths. In [fs_case] the listing gives [a.kicad_sym] before
    [A.kicad_sym], and so does the sorted result. *)
Lemma equal_keys_not_ordered_by_path :
  ~ exists lower,
      folds_ascii lower
      /\ forall fs dir,
           Sorted (fun p q => key_then_path_le lower p q = true)
             (sym_files lower fs dir).
Proof.
  intros (lower & Hfold & H).
  specialize (H Sample.fs_case Sample.symbols_dir).
  assert (E : sym_files lower Sample.fs_case Sample.symbols_dir
              = [child Sample.symbols_dir "a.kicad_sym";
                 child Sample.symbols_dir "A.kicad_sym"]).
  { unfold sym_files. rewrite sorted_ascii; [by vm_compute | done |].
    apply (bool_decide_unpack _). by vm_compute. }
  rewrite E in H. inversion H as [|? ? _ Hhd]; subst.
  inversion Hhd as [|? ? Hle]; subst.
  unfold key_then_path_le, sort_key in Hle.
  rewrite !Hfold in Hle by reflexivity.
  vm_compute in Hle. discriminate.
Qed.

Lemma empty_symbols_header_and_footer_witness :
  path_exists Sample.fs_empty Sample.symbols_dir = true
  /\ rglob Sample.fs_empty Sample.symbols_dir ".kicad_sym" = []
  /\ generate_sym_lib_table Str.ascii_lower Sample.project_root
       Sample.symbols_dir Sample.fs_empty
     = Ok (SYM_HEADER +:+ FOOTER).
Proof.
  split; [reflexivity|]. split; [reflexivity|].
  exact (proj1 (empty_symbols_header_and_footer Str.ascii_lower
                  Sample.project_root
                  Sample.symbols_dir Sample.fs_empty eq_refl eq_refl)).
Defined.

Lemma generation_deterministic_witness :
  wf_fs Sample.fs_two = true
  /\ wf_fs Sample.fs_two_written = true
  /\ fs_find Sample.fs_two Sample.symbols_dir
     = fs_find Sample.fs_two_written Sample.symbols_dir
  /\ fs_find Sample.fs_two Sample.footprints_dir
     = fs_find Sample.fs_two_written Sample.footprints_dir
  /\ generate_sym_lib_table Str.ascii_lower Sample.project_root
       Sample.symbols_dir Sample.fs_two
     = generate_sym_lib_table Str.ascii_lower Sample.project_root
         Sample.symbols_dir Sample.fs_two_written
  /\ generate_fp_lib_table Str.ascii_lower Sample.project_root
       Sample.footprints_dir Sample.fs_two
     = generate_fp_lib_table Str.ascii_lower Sample.project_root
         Sample.footprints_dir Sample.fs_two_written.
Proof.
  split; [reflexivity|]. split; [vm_compute; reflexivity|].
  split; [vm_compute; reflexivity|]. split; [vm_compute; reflexivity|].
  exact (generation_deterministic Str.ascii_lower Sample.project_root
           Sample.symbols_dir
           Sample.footprints_dir Sample.fs_two Sample.fs_two_written
           eq_refl ltac:(vm_compute; reflexivity)
           ltac:(vm_compute; reflexivity) ltac:(vm_compute; reflexivity)).
Defined.

(** C9, as stated, fails, whatever the order of the sort: a scan directory
    that is itself a directory with the footprint suffix is not among the
    discovered entries. *)
Lemma scan_directory_not_discovered :
  ~ exists lower,
      forall fs dir,
        is_dir fs dir = true ->
        Str.endswith (name dir) ".pretty" = true ->
        dir ∈ pretty_dirs lower fs dir.
Proof.
  intros (lower & H).
  specialize (H Sample.fs_pretty_root Sample.pretty_root eq_refl eq_refl).
  unfold pretty_dirs in H. apply sorted_elem_of in H.
  assert (E : filter (fun p => is_dir Sample.fs_pretty_root p = true)
                (rglob Sample.fs_pretty_root Sample.pretty_root ".pretty")
              = [child Sample.pretty_root "r.pretty"])
    by (vm_compute; reflexivity).
  rewrite E in H. apply list_elem_of_singleton in H. discriminate.
Qed.

Lemma discovery_strictly_below_witness :
  wf_fs Sample.fs_pretty_root = true
  /\ (Sample.pretty_root
        ∉ pretty_dirs Str.ascii_lower Sample.fs_pretty_root Sample.pretty_root)
  /\ (child Sample.pretty_root "r.pretty"
        ∈ pretty_dirs Str.ascii_lower Sample.fs_pretty_root Sample.pretty_root).
Proof.
  split; [reflexivity|].
  destruct (discovery_strictly_below Str.ascii_lower Sample.fs_pretty_root
              Sample.pretty_root
              (child Sample.pretty_root "r.pretty") eq_refl)
    as (_ & Hin & _ & Hnot).
  split; [exact Hnot|].
  apply Hin.
  exists (Dir [("r.pretty", Dir [])]), [], "r.pretty", [].
  repeat split; reflexivity.
Defined.

Lemma colliding_entry_in_project_root_witness :
  Sample.in_root
    = [mkPath true ["p"; "A"; "x.kicad_sym"]] ++ mkPath true ["p"; "x.kicad_sym"] :: []
  /\ (mkPath true ["p"; "x.kicad_sym"] ∉ [])
  /\ (stem (mkPath true ["p"; "x.kicad_sym"])
        ∈ stem <$> [mkPath true ["p"; "A"; "x.kicad_sym"]])
  /\ parent (mkPath true ["p"; "x.kicad_sym"]) = Sample.project_root
  /\ make_unique_names Sample.in_root stem Sample.project_root
       !! mkPath true ["p"; "x.kicad_sym"]
     = Some "x_.".
Proof.
  assert (Hcoll : stem (mkPath true ["p"; "x.kicad_sym"])
                    ∈ stem <$> [mkPath true ["p"; "A"; "x.kicad_sym"]])
    by (apply list_elem_of_singleton; reflexivity).
  split; [reflexivity|]. split; [apply not_elem_of_nil|].
  split; [exact Hcoll|]. split; [reflexivity|].
  destruct (colliding_entry_in_project_root stem Sample.project_root
              Sample.in_root [mkPath true ["p"; "A"; "x.kicad_sym"]] []
              (mkPath true ["p"; "x.kicad_sym"])
              eq_refl (not_elem_of_nil _) Hcoll eq_refl) as (_ & H & _).
  exact H.
Defined.

(* ---- further properties on the sample trees ---- *)

Lemma unique_bases_keep_names_witness :
  NoDup (stem <$> [Sample.sym_a; More.sym_b])
  /\ make_unique_names [Sample.sym_a; More.sym_b] stem Sample.project_root
       !! More.sym_b
     = Some "b".
Proof.
  assert (Hnd : NoDup (stem <$> [Sample.sym_a; More.sym_b])).
  { apply (bool_decide_unpack _). vm_compute. exact I. }
  split; [exact Hnd|].
  destruct (unique_bases_keep_names stem Sample.project_root
              [Sample.sym_a; More.sym_b] Hnd) as [Hall _].
  apply (Hall More.sym_b). right. left.
Defined.

Lemma assigned_name_shape_witness :
  make_unique_names [Sample.sym_a; Sample.sym_sub_a] stem Sample.project_root
    !! Sample.sym_sub_a
  = Some "a_lib_symbols_sub"
  /\ ("a_lib_symbols_sub" = stem Sample.sym_sub_a
      \/ "a_lib_symbols_sub"
         = stem Sample.sym_sub_a +:+ "_"
           +:+ name_suffix Sample.project_root Sample.sym_sub_a).
Proof.
  assert (H : make_unique_names [Sample.sym_a; Sample.sym_sub_a] stem
                Sample.project_root !! Sample.sym_sub_a
              = Some "a_lib_symbols_sub") by (vm_compute; reflexivity).
  split; [exact H|].
  exact (assigned_name_shape stem Sample.project_root
           [Sample.sym_a; Sample.sym_sub_a] Sample.sym_sub_a
           "a_lib_symbols_sub" H).
Defined.

Lemma main_dry_run_witness :
  dry_run More.args_dry = true
  /\ w_fs (main Str.ascii_lower Sample.all_encodable Sample.all_encodable
             Sample.no_message More.args_dry Sample.script_path
             (Sample.world Sample.fs_two)).2
     = Sample.fs_two
  /\ (main Str.ascii_lower Sample.all_encodable Sample.all_encodable
        Sample.no_message More.args_dry Sample.script_path
        (Sample.world Sample.fs_two)).1
     = Exit 0.
Proof.
  split; [reflexivity|].
  destruct (main_dry_run Str.ascii_lower Sample.all_encodable
              Sample.all_encodable Sample.no_message More.args_dry
              Sample.script_path
              (Sample.world Sample.fs_two) eq_refl) as (Hfs & _ & _ & Hboth).
  split; [exact Hfs|].
  destruct (Hboth eq_refl eq_refl) as (sym & fp & _ & _ & Hexit & _).
  exact Hexit.
Defined.

Lemma sym_table_independent_of_listing_order_witness :
  path_exists More.fs_ab Sample.symbols_dir
  = path_exists More.fs_ba Sample.symbols_dir
  /\ (rglob More.fs_ab Sample.symbols_dir ".kicad_sym"
        ≡ₚ rglob More.fs_ba Sample.symbols_dir ".kicad_sym")
  /\ NoDup (sort_key Str.ascii_lower
              <$> rglob More.fs_ab Sample.symbols_dir ".kicad_sym")
  /\ rglob More.fs_ab Sample.symbols_dir ".kicad_sym"
     <> rglob More.fs_ba Sample.symbols_dir ".kicad_sym"
  /\ generate_sym_lib_table Str.ascii_lower Sample.project_root
       Sample.symbols_dir More.fs_ab
     = generate_sym_lib_table Str.ascii_lower Sample.project_root
         Sample.symbols_dir More.fs_ba.
Proof.
  assert (Hperm : rglob More.fs_ab Sample.symbols_dir ".kicad_sym"
                    ≡ₚ rglob More.fs_ba Sample.symbols_dir ".kicad_sym").
  { vm_compute. apply Permutation_swap. }
  assert (Hnd : NoDup (sort_key Str.ascii_lower
                         <$> rglob More.fs_ab Sample.symbols_dir ".kicad_sym")).
  { apply (bool_decide_unpack _). vm_compute. exact I. }
  split; [reflexivity|]. split; [exact Hperm|]. split; [exact Hnd|].
  split; [vm_compute; discriminate|].
  exact (sym_table_independent_of_listing_order Str.ascii_lower
           Sample.project_root
           Sample.symbols_dir More.fs_ab More.fs_ba eq_refl Hperm Hnd).
Defined.

Lemma fp_table_independent_of_listing_order_witness :
  path_exists More.fs_ab Sample.footprints_dir
  = path_exists More.fs_ba Sample.footprints_dir
  /\ (filter (fun p => is_dir More.fs_ab p = true)
        (rglob More.fs_ab Sample.footprints_dir ".pretty")
        ≡ₚ filter (fun p => is_dir More.fs_ba p = true)
             (rglob More.fs_ba Sample.footprints_dir ".pretty"))
  /\ NoDup (sort_key Str.ascii_lower
              <$> filter (fun p => is_dir More.fs_ab p = true)
                    (rglob More.fs_ab Sample.footprints_dir ".pretty"))
  /\ generate_fp_lib_table Str.ascii_lower Sample.project_root
       Sample.footprints_dir More.fs_ab
     = generate_fp_lib_table Str.ascii_lower Sample.project_root
         Sample.footprints_dir More.fs_ba.
Proof.
  assert (Hperm : filter (fun p => is_dir More.fs_ab p = true)
                    (rglob More.fs_ab Sample.footprints_dir ".pretty")
                    ≡ₚ filter (fun p => is_dir More.fs_ba p = true)
                         (rglob More.fs_ba Sample.footprints_dir ".pretty")).
  { vm_compute. apply Permutation_swap. }
  assert (Hnd : NoDup (sort_key Str.ascii_lower
                         <$> filter (fun p => is_dir More.fs_ab p = true)
                               (rglob More.fs_ab Sample.footprints_dir ".pretty"))).
  { apply (bool_decide_unpack _). vm_compute. exact I. }
  split; [reflexivity|]. split; [exact Hperm|]. split; [exact Hnd|].
  exact (fp_table_independent_of_listing_order Str.ascii_lower
           Sample.project_root
           Sample.footprints_dir More.fs_ab More.fs_ba eq_refl Hperm Hnd).
Defined.

Lemma sym_file_base_name_witness :
  (child Sample.symbols_dir ".kicad_sym"
     ∈ sym_files Str.ascii_lower More.fs_hidden Sample.symbols_dir)
  /\ stem (child Sample.symbols_dir ".kicad_sym") = ".kicad_sym"
  /\ exists x,
       name (child Sample.symbols_dir ".kicad_sym") = x +:+ ".kicad_sym"
       /\ stem (child Sample.symbols_dir ".kicad_sym")
          = if decide (x = EmptyString) then ".kicad_sym" else x.
Proof.
  assert (Hin : child Sample.symbols_dir ".kicad_sym"
                  ∈ sym_files Str.ascii_lower More.fs_hidden Sample.symbols_dir).
  { assert (E : sym_files Str.ascii_lower More.fs_hidden Sample.symbols_dir
                = [child Sample.symbols_dir ".kicad_sym"])
      by (vm_compute; reflexivity).
    rewrite E. left. }
  split; [exact Hin|]. split; [reflexivity|].
  exact (sym_file_base_name Str.ascii_lower More.fs_hidden Sample.symbols_dir
           _ Hin).
Defined.

Lemma pretty_dir_base_name_witness :
  (child Sample.footprints_dir ".pretty"
     ∈ pretty_dirs Str.ascii_lower More.fs_hidden Sample.footprints_dir)
  /\ pretty_base (child Sample.footprints_dir ".pretty") = EmptyString
  /\ exists x,
       name (child Sample.footprints_dir ".pretty") = x +:+ ".pretty"
       /\ pretty_base (child Sample.footprints_dir ".pretty") = x.
Proof.
  assert (Hin : child Sample.footprints_dir ".pretty"
                  ∈ pretty_dirs Str.ascii_lower More.fs_hidden
                      Sample.footprints_dir).
  { assert (E : pretty_dirs Str.ascii_lower More.fs_hidden Sample.footprints_dir
                = [child Sample.footprints_dir ".pretty"])
      by (vm_compute; reflexivity).
    rewrite E. left. }
  split; [exact Hin|]. split; [reflexivity|].
  exact (pretty_dir_base_name Str.ascii_lower More.fs_hidden
           Sample.footprints_dir _ Hin).
Defined.

Lemma main_writes_tables_witness :
  dry_run Sample.args = false
  /\ main Str.ascii_lower Sample.all_encodable Sample.all_encodable
       Sample.no_message Sample.args Sample.script_path
       (Sample.world Sample.fs_two)
     = (Exit 0, More.world_after)
  /\ exists fp,
       generate_fp_lib_table Str.ascii_lower Sample.project_root
         Sample.footprints_dir Sample.fs_two = Ok fp
       /\ fs_find (w_fs More.world_after) (mkPath true ["p"; "fp-lib-table"])
          = Some (File fp).
Proof.
  assert (Hmain : main Str.ascii_lower Sample.all_encodable Sample.all_encodable
                    Sample.no_message Sample.args Sample.script_path
                    (Sample.world Sample.fs_two)
                  = (Exit 0, More.world_after)) by (vm_compute; reflexivity).
  split; [reflexivity|]. split; [exact Hmain|].
  destruct (main_writes_tables Str.ascii_lower Sample.all_encodable
              Sample.all_encodable Sample.no_message Sample.args
              Sample.script_path
              (Sample.world Sample.fs_two) More.world_after eq_refl Hmain)
    as (sym & fp & _ & Hfp & Hfile & _).
  exists fp. split; [exact Hfp | exact Hfile].
Defined.

Lemma main_leaves_other_files_witness :
  dry_run Sample.args = false
  /\ main Str.ascii_lower Sample.all_encodable Sample.all_encodable
       Sample.no_message Sample.args Sample.script_path
       (Sample.world Sample.fs_two)
     = (Exit 0, More.world_after)
  /\ fs_find Sample.fs_two Sample.sym_a = Some (File "(a1)")
  /\ fs_find (w_fs More.world_after) Sample.sym_a = Some (File "(a1)").
Proof.
  assert (Hmain : main Str.ascii_lower Sample.all_encodable Sample.all_encodable
                    Sample.no_message Sample.args Sample.script_path
                    (Sample.world Sample.fs_two)
                  = (Exit 0, More.world_after)) by (vm_compute; reflexivity).
  split; [reflexivity|]. split; [exact Hmain|]. split; [reflexivity|].
  apply (main_leaves_other_files Str.ascii_lower Sample.all_encodable
           Sample.all_encodable Sample.no_message Sample.args
           Sample.script_path (Sample.world Sample.fs_two) More.world_after
           Sample.sym_a "(a1)" eq_refl Hmain eq_refl).
  - vm_compute. discriminate.
  - vm_compute. discriminate.
Defined.

Lemma main_uncaught_write_witness :
  (main Str.ascii_lower Sample.none_encodable Sample.all_encodable
     Sample.no_message Sample.args Sample.script_path
     (Sample.world Sample.fs_two)
   = (Uncaught UnicodeEncodeError, More.world_after_unencodable)
   /\ fs_find (w_fs More.world_after_unencodable)
        (mkPath true ["p"; "sym-lib-table"])
      = Some (File EmptyString))
  /\ (main Str.ascii_lower Sample.all_encodable Sample.all_encodable
        Sample.no_message More.args_bad_fp Sample.script_path
        (Sample.world Sample.fs_two)
      = (Uncaught (OSError (mkPath true ["p"; "nodir"; "fp-lib-table"])),
         More.world_after_bad_fp)
      /\ exists sym,
           generate_sym_lib_table Str.ascii_lower Sample.project_root
             Sample.symbols_dir Sample.fs_two = Ok sym
           /\ fs_find (w_fs More.world_after_bad_fp)
                (mkPath true ["p"; "sym-lib-table"])
              = Some (File sym)).
Proof.
  assert (Hmain1 : main Str.ascii_lower Sample.none_encodable
                     Sample.all_encodable Sample.no_message Sample.args
                     Sample.script_path (Sample.world Sample.fs_two)
                   = (Uncaught UnicodeEncodeError, More.world_after_unencodable))
    by (vm_compute; reflexivity).
  assert (Hmain2 : main Str.ascii_lower Sample.all_encodable
                     Sample.all_encodable Sample.no_message More.args_bad_fp
                     Sample.script_path (Sample.world Sample.fs_two)
                   = (Uncaught (OSError (mkPath true ["p"; "nodir"; "fp-lib-table"])),
                      More.world_after_bad_fp))
    by (vm_compute; reflexivity).
  split; (split; [assumption|]).
  - destruct (main_uncaught_write Str.ascii_lower Sample.none_encodable
                Sample.all_encodable Sample.no_message Sample.args
                Sample.script_path (Sample.world Sample.fs_two)
                More.world_after_unencodable _ Hmain1)
      as (_ & _ & sym & fp & _ & _
          & [(_ & [(He & _)|(_ & _ & Hfile)])
            |[(_ & Henc & _)|(_ & Henc & _)]]).
    + discriminate He.
    + exact Hfile.
    + discriminate Henc.
    + discriminate Henc.
  - destruct (main_uncaught_write Str.ascii_lower Sample.all_encodable
                Sample.all_encodable Sample.no_message More.args_bad_fp
                Sample.script_path (Sample.world Sample.fs_two)
                More.world_after_bad_fp _ Hmain2)
      as (_ & _ & sym & fp & Hsym & _
          & [(_ & [(He & _)|(He & _)])
            |[(_ & _ & [(_ & Hfile)|(He & _)])|(He & _)]]).
    + vm_compute in He. discriminate He.
    + discriminate He.
    + exists sym. split; [exact Hsym | exact Hfile].
    + discriminate He.
    + discriminate He.
Defined.

Lemma scan_path_regular_file_witness :
  fs_find Sample.fs_two Sample.sym_a = Some (File "(a1)")
  /\ relative_to Sample.sym_a Sample.project_root
     = Some (mkPath false ["lib"; "symbols"; "a.kicad_sym"])
  /\ generate_sym_lib_table Str.ascii_lower Sample.project_root Sample.sym_a
       Sample.fs_two
     = Ok (SYM_HEADER +:+ FOOTER).
Proof.
  split; [reflexivity|]. split; [reflexivity|].
  exact (proj1 (scan_path_regular_file Str.ascii_lower Sample.project_root
                  Sample.sym_a
                  (mkPath false ["lib"; "symbols"; "a.kicad_sym"])
                  Sample.fs_two "(a1)" eq_refl eq_refl)).
Defined.
